(** * ChatVibe client: message encryption and real-time synchronisation

    A shallow embedding of the TypeScript sources
      - [lib/encryption.ts]            ([encryptMessage], [decryptMessage]),
      - [components/chat/ChatLayout.tsx] (presence / profile status),
      - [components/chat/ChatWindow.tsx] (message thread, typing indicator),
      - [components/chat/ChatSidebar.tsx], [SettingsModal.tsx], [AuthForm.tsx]
        (the remaining backend calls of the client),
    followed by the properties the specification states about them.

    JavaScript strings are sequences of UTF-16 code units, exceptions are an
    explicit [completion], and the effects of the handlers (console, toasts,
    backend requests, timers, React state) are threaded through a small
    state-and-exception monad. *)

From Stdlib Require Import List NArith Bool String Ascii Lia Sorted.
Import ListNotations.

Set Implicit Arguments.

Local Open Scope N_scope.

(* ================================================================== *)
(** ** JavaScript strings *)
(* ================================================================== *)

Module JS.

(** A JS string is its sequence of UTF-16 code units. *)
Definition jsstring := list N.

(** String literals of the source. *)
Definition str (s : string) : jsstring :=
  List.map N_of_ascii (list_ascii_of_string s).

(** [a === b] on strings. *)
Fixpoint eqb (a b : jsstring) : bool :=
  match a, b with
  | [], [] => true
  | x :: a', y :: b' => (x =? y) && eqb a' b'
  | _, _ => false
  end.

(** [s.length] *)
Definition length (s : jsstring) : N := N.of_nat (List.length s).

(** Truthiness of a string: only the empty string is falsy. *)
Definition truthy (s : jsstring) : bool :=
  match s with [] => false | _ :: _ => true end.

(** [a || b] on strings. *)
Definition or_else (a b : jsstring) : jsstring :=
  if truthy a then a else b.

(** ECMAScript WhiteSpace and LineTerminator code points, the characters
    [String.prototype.trim] strips. *)
Definition is_white_space (u : N) : bool :=
  (u =? 0x09) || (u =? 0x0A) || (u =? 0x0B) || (u =? 0x0C) || (u =? 0x0D)
  || (u =? 0x20) || (u =? 0xA0) || (u =? 0x1680)
  || ((0x2000 <=? u) && (u <=? 0x200A))
  || (u =? 0x2028) || (u =? 0x2029) || (u =? 0x202F) || (u =? 0x205F)
  || (u =? 0x3000) || (u =? 0xFEFF).

Fixpoint trimStart (s : jsstring) : jsstring :=
  match s with
  | [] => []
  | u :: r => if is_white_space u then trimStart r else s
  end.

Definition trimEnd (s : jsstring) : jsstring := rev (trimStart (rev s)).

(** [s.trim()] *)
Definition trim (s : jsstring) : jsstring := trimEnd (trimStart s).

End JS.

Import JS.

(* ================================================================== *)
(** ** Completions and the effect monad *)
(* ================================================================== *)

(** A thrown value; the handlers only ever log it. *)
Definition js_error := string.

(** The outcome of evaluating a JS expression: a value or an exception. *)
Inductive completion (A : Type) : Type :=
| Normal (a : A)
| Throw (e : js_error).

Arguments Normal {A} a.
Arguments Throw {A} e.

(** What the backend SDK hands back for an awaited call: the promise
    resolves with [{ data, error }] or is rejected. *)
Inductive reply (D : Type) : Type :=
| Resolved (data : option D) (error : option js_error)
| Rejected (e : js_error).

Arguments Resolved {D} data error.
Arguments Rejected {D} e.

(** Values stored in the columns the client writes. *)
Inductive jsval :=
| VStr (s : jsstring)
| VBool (b : bool)
| VTime (instant : N).   (* [new Date().toISOString()] taken at [instant] *)

(** An object literal passed to the SDK: fields in source order. *)
Definition row := list (string * jsval).

Fixpoint field (name : string) (r : row) : option jsval :=
  match r with
  | [] => None
  | (k, v) :: r' => if String.eqb k name then Some v else field name r'
  end.

Inductive table := direct_messages | typing_status | profiles.

(** PostgREST filters as the client builds them. *)
Inductive filter :=
| FEq (column : string) (v : jsstring)
| FNeq (column : string) (v : jsstring)
| FAnd (f g : filter)
| FOr (f g : filter).

(** Calls on the backend SDK.  [Delete] is part of the SDK surface; it is
    listed so that its absence from the client is a statement and not a
    typing artefact. *)
Inductive backend_op :=
| Select (t : table) (flt : filter) (order_by : string) (ascending : bool)
| Insert (t : table) (r : row)
| Upsert (t : table) (r : row)
| Update (t : table) (r : row) (flt : filter)
| Delete (t : table) (flt : filter)
| AuthSignUp (email password : jsstring) (data : row)
| AuthSignIn (email password : jsstring)
| AuthSignOut
| AuthUpdateUser (data : row)
| ChannelSubscribe (name : jsstring)
| ChannelUnsubscribe (name : jsstring)
| PresenceTrack (r : row).

Inductive console_line :=
| ConsoleLog (label : string)
| ConsoleError (label : string) (e : js_error).

Record toast := Toast {
  title : string;
  description : string;
  variant : option string
}.

(** A pending [setTimeout] callback, with the variables its closure
    captured.  The only one in the client is the typing time-out of
    [handleInputChange]: it captures [value], the [newMessage] of the render
    that created the handler, and (through [updateTypingStatus]) the two
    user ids. *)
Record timer_cb := TypingTimeout {
  cb_user : jsstring;
  cb_peer : jsstring;
  cb_value : jsstring;
  cb_newMessage : jsstring
}.

(** Effects shared by all components. *)
Record Env := mkEnv {
  console : list console_line;
  toasts : list toast;
  requests : list backend_op;
  timers : list (N * timer_cb);     (* (deadline in ms, callback) *)
  clock : N                         (* current time in ms *)
}.

(** Computations over a component state [St] and the shared effects. *)
Definition M (St A : Type) : Type := St -> Env -> completion A * St * Env.

Definition ret {St A} (a : A) : M St A := fun s e => (Normal a, s, e).

Definition bind {St A B} (m : M St A) (k : A -> M St B) : M St B :=
  fun s e =>
    match m s e with
    | (Normal a, s', e') => k a s' e'
    | (Throw x, s', e') => (Throw x, s', e')
    end.

Notation "x <- m ;; k" := (bind m (fun x => k))
  (at level 61, m at next level, right associativity).
Notation "m ;; k" := (bind m (fun _ => k))
  (at level 61, right associativity).

(** [throw e] *)
Definition throw {St A} (x : js_error) : M St A := fun s e => (Throw x, s, e).

(** Lift the outcome of a library call. *)
Definition lift {St A} (c : completion A) : M St A := fun s e => (c, s, e).

(** [try { body } catch (error) { handler }] *)
Definition try_catch {St A} (body : M St A) (handler : js_error -> M St A)
  : M St A :=
  fun s e =>
    match body s e with
    | (Normal a, s', e') => (Normal a, s', e')
    | (Throw x, s', e') => handler x s' e'
    end.

(** [try { body } finally { fin }] *)
Definition try_finally {St A} (body : M St A) (fin : M St unit) : M St A :=
  fun s e =>
    match body s e with
    | (r, s', e') =>
        match fin s' e' with
        | (Normal _, s'', e'') => (r, s'', e'')
        | (Throw x, s'', e'') => (Throw x, s'', e'')
        end
    end.

Definition get_state {St} : M St St := fun s e => (Normal s, s, e).
Definition modify {St} (f : St -> St) : M St unit :=
  fun s e => (Normal tt, f s, e).
Definition now {St} : M St N := fun s e => (Normal (clock e), s, e).

Definition console_log {St} (label : string) : M St unit :=
  fun s e => (Normal tt, s,
    mkEnv (console e ++ [ConsoleLog label]) (toasts e) (requests e)
          (timers e) (clock e)).

Definition console_error {St} (label : string) (x : js_error) : M St unit :=
  fun s e => (Normal tt, s,
    mkEnv (console e ++ [ConsoleError label x]) (toasts e) (requests e)
          (timers e) (clock e)).

Definition show_toast {St} (t : toast) : M St unit :=
  fun s e => (Normal tt, s,
    mkEnv (console e) (toasts e ++ [t]) (requests e) (timers e) (clock e)).

(** Issue [op] and await it: the request is recorded, the environment
    supplies the reply, a rejected promise surfaces as an exception at the
    [await].  A handler is run to its end with the replies it is given, so
    the code after an [await] is not interleaved with other events; the
    order in which requests are issued is that of the source. *)
Definition await {St D} (op : backend_op) (r : reply D)
  : M St (option D * option js_error) :=
  fun s e =>
    let e' := mkEnv (console e) (toasts e) (requests e ++ [op])
                    (timers e) (clock e) in
    match r with
    | Resolved d err => (Normal (d, err), s, e')
    | Rejected x => (Throw x, s, e')
    end.

(** A backend call whose promise the source does not look at. *)
Definition send {St} (op : backend_op) : M St unit :=
  fun s e => (Normal tt, s,
    mkEnv (console e) (toasts e) (requests e ++ [op]) (timers e) (clock e)).

(** [setTimeout(cb, delay)]; earlier timers are left in place. *)
Definition setTimeout {St} (cb : timer_cb) (delay : N) : M St unit :=
  fun s e => (Normal tt, s,
    mkEnv (console e) (toasts e) (requests e)
          (timers e ++ [(clock e + delay, cb)]) (clock e)).

(* ================================================================== *)
(** ** lib/encryption.ts *)
(* ================================================================== *)

Definition ENCRYPTION_KEY : jsstring := str "chatvibe-e2e-encryption-key-2024".

Section Encryption.

(** The third-party cipher.  [AES_encrypt salt message key] stands for
    [CryptoJS.AES.encrypt(message, key).toString()], where [salt] is the
    random salt the library draws for the call; [AES_decrypt c key] for
    [CryptoJS.AES.decrypt(c, key).toString(CryptoJS.enc.Utf8)].  Either
    may throw. *)
Variable AES_encrypt : N -> jsstring -> jsstring -> completion jsstring.
Variable AES_decrypt : jsstring -> jsstring -> completion jsstring.

Variable St : Type.

Definition encryptMessage (salt : N) (message : jsstring) : M St jsstring :=
  try_catch
    (encrypted <- lift (AES_encrypt salt message ENCRYPTION_KEY) ;;
     ret encrypted)
    (fun error =>
       console_error "Encryption error:" error ;;
       ret message).

Definition decryptMessage (encryptedMessage : jsstring) : M St jsstring :=
  try_catch
    (decrypted <- lift (AES_decrypt encryptedMessage ENCRYPTION_KEY) ;;
     ret (or_else decrypted encryptedMessage))
    (fun error =>
       console_error "Decryption error:" error ;;
       ret encryptedMessage).

End Encryption.

(* ================================================================== *)
(** ** Records of the data model *)
(* ================================================================== *)

Module Message.
Record t := mk {
  id : jsstring;
  sender_id : jsstring;
  receiver_id : jsstring;
  content : jsstring;
  created_at : jsstring
}.
End Message.

Module Profile.
Record t := mk {
  id : jsstring;
  user_id : jsstring;
  username : jsstring;
  display_name : jsstring;
  bio : jsstring;
  status : jsstring;
  avatar_url : option jsstring;
  last_seen : jsstring
}.
End Profile.

(** [currentUser]: only its [id] is read by the code modelled here. *)
Module User.
Record t := mk { id : jsstring }.
End User.

Definition destructive (description : string) : toast :=
  Toast "Error" description (Some "destructive"%string).

(* ================================================================== *)
(** ** components/chat/ChatLayout.tsx *)
(* ================================================================== *)

Module ChatLayout.

Record state := mkState { selectedProfile : option Profile.t }.

Section Component.
Variable currentUser : User.t.

Definition updateUserStatus (status : jsstring) (r : reply unit)
  : M state unit :=
  try_catch
    (t <- now ;;
     _ <- await
            (Update profiles
               [("status"%string, VStr status);
                ("last_seen"%string, VTime t)]
               (FEq "user_id" (User.id currentUser)))
            r ;;
     ret tt)
    (fun error => console_error "Error updating user status:" error).

(** Body of the mount effect up to the listener registrations; the
    listeners themselves are the handlers below. *)
Definition mount (r : reply unit) : M state unit :=
  updateUserStatus (str "online") r ;;
  send (ChannelSubscribe (str "user-presence")).

(** Presence callbacks: they only log. *)
Definition on_presence_sync : M state unit := console_log "Presence sync:".
Definition on_presence_join : M state unit := console_log "User joined:".
Definition on_presence_leave : M state unit := console_log "User left:".

(** The callback handed to [subscribe]: it awaits [track] outside any
    [try], so a rejected promise leaves it as an exception; [r] is the
    answer to [track]. *)
Definition on_subscribe_status (status : jsstring) (r : reply unit)
  : M state unit :=
  if eqb status (str "SUBSCRIBED") then
    t <- now ;;
    _ <- await
           (PresenceTrack
              [("user_id"%string, VStr (User.id currentUser));
               ("online_at"%string, VTime t);
               ("status"%string, VStr (str "online"))])
           r ;;
    ret tt
  else ret tt.

Definition handleBeforeUnload (r : reply unit) : M state unit :=
  updateUserStatus (str "offline") r.

(** [hidden] is [document.hidden] when the event fires. *)
Definition handleVisibilityChange (hidden : bool) (r : reply unit)
  : M state unit :=
  if hidden then updateUserStatus (str "away") r
  else updateUserStatus (str "online") r.

(** The clean-up function returned by the effect. *)
Definition teardown (r : reply unit) : M state unit :=
  updateUserStatus (str "offline") r ;;
  send (ChannelUnsubscribe (str "user-presence")).

Definition handleSelectChat (userId : jsstring) (profile : Profile.t)
  : M state unit :=
  modify (fun _ => mkState (Some profile)).

End Component.

End ChatLayout.

(* ================================================================== *)
(** ** components/chat/ChatWindow.tsx *)
(* ================================================================== *)

(** What a boolean flag can hold at run time: the state variable
    [isTyping] is declared a boolean, but it is set from
    [(payload.new as any).is_typing], which is [undefined] when the record
    has no such property. *)
Inductive jsflag :=
| Flag (b : bool)
| Undefined.

Coercion Flag : bool >-> jsflag.

Module ChatWindow.

Record state := mkState {
  messages : list Message.t;
  newMessage : jsstring;
  loading : bool;
  isTyping : jsflag
}.

Definition initial : state := mkState [] [] false false.

(** The [useState] setters.  [setMessages] is used both with a value and
    with an updater function; the updater form is the general one. *)
Definition setMessages (f : list Message.t -> list Message.t)
  : M state unit :=
  modify (fun s => mkState (f (messages s)) (newMessage s) (loading s)
                           (isTyping s)).
Definition setNewMessage (v : jsstring) : M state unit :=
  modify (fun s => mkState (messages s) v (loading s) (isTyping s)).
Definition setLoading (v : bool) : M state unit :=
  modify (fun s => mkState (messages s) (newMessage s) v (isTyping s)).
Definition setIsTyping (v : jsflag) : M state unit :=
  modify (fun s => mkState (messages s) (newMessage s) (loading s) v).

(** [prev.find(msg => msg.id === newMessage.id)] *)
Definition find_by_id (i : jsstring) (prev : list Message.t)
  : option Message.t :=
  List.find (fun msg => eqb (Message.id msg) i) prev.

(** The updater passed to [setMessages] by the insert subscription. *)
Definition append_unless_present (newMsg : Message.t)
           (prev : list Message.t) : list Message.t :=
  match find_by_id (Message.id newMsg) prev with
  | Some _ => prev                 (* [if (exists) return prev] *)
  | None => prev ++ [newMsg]       (* [[...prev, newMessage]] *)
  end.

Definition conversation_filter (a b : jsstring) : filter :=
  FOr (FAnd (FEq "sender_id" a) (FEq "receiver_id" b))
      (FAnd (FEq "sender_id" b) (FEq "receiver_id" a)).

(** [data || []] *)
Definition or_empty {A} (data : option (list A)) : list A :=
  match data with Some l => l | None => [] end.

Section Component.
Variable AES_encrypt : N -> jsstring -> jsstring -> completion jsstring.
Variable AES_decrypt : jsstring -> jsstring -> completion jsstring.
Variable currentUser : User.t.
Variable selectedProfile : Profile.t.

Let me := User.id currentUser.
Let peer := Profile.user_id selectedProfile.

(** Callback of the [direct_messages] INSERT subscription;
    [newMsg] is [payload.new]. *)
Definition on_message_insert (newMsg : Message.t) : M state unit :=
  console_log "New message received:" ;;
  setMessages (append_unless_present newMsg).

(** Callback of the [typing_status] subscription.  [payload_new] is
    [payload.new]: [None] when it is [null] or [undefined] (the guard
    fails), [Some f] when it is an object whose [is_typing] reads as [f].
    The SDK hands over the row on INSERT and UPDATE and the empty object
    on DELETE, which passes the guard and reads as [Undefined]. *)
Definition on_typing_change (payload_new : option jsflag) : M state unit :=
  console_log "Typing status changed:" ;;
  match payload_new with
  | Some is_typing => setIsTyping is_typing
  | None => ret tt
  end.

Definition fetchMessages (r : reply (list Message.t)) : M state unit :=
  try_catch
    (res <- await
              (Select direct_messages (conversation_filter me peer)
                      "created_at" true)
              r ;;
     match snd res with
     | Some error => throw error
     | None => setMessages (fun _ => or_empty (fst res))
     end)
    (fun error =>
       console_error "Error fetching messages:" error ;;
       show_toast (destructive "Failed to load messages")).

(** The mount effect: fetch, then open the two subscriptions. *)
Definition mount (r : reply (list Message.t)) : M state unit :=
  fetchMessages r ;;
  send (ChannelSubscribe (str "chat-" ++ me ++ str "-" ++ peer)) ;;
  send (ChannelSubscribe (str "typing-" ++ me ++ str "-" ++ peer)).

Definition teardown : M state unit :=
  send (ChannelUnsubscribe (str "chat-" ++ me ++ str "-" ++ peer)) ;;
  send (ChannelUnsubscribe (str "typing-" ++ me ++ str "-" ++ peer)).

(** [sendMessage] as created by a render in which the state variable
    [newMessage] had the value [newMessage_]; [salt] is the salt the
    cipher draws, [r] the backend's answer to the insert. *)
Definition sendMessage (newMessage_ : jsstring) (salt : N)
           (r : reply unit) : M state unit :=
  if negb (truthy (trim newMessage_)) then ret tt
  else
    setLoading true ;;
    try_finally
      (try_catch
         (encryptedContent <-
            encryptMessage AES_encrypt salt (trim newMessage_) ;;
          res <- await
                   (Insert direct_messages
                      [("sender_id"%string, VStr me);
                       ("receiver_id"%string, VStr peer);
                       ("content"%string, VStr encryptedContent)])
                   r ;;
          match snd res with
          | Some error => throw error
          | None => setNewMessage []
          end)
         (fun error =>
            console_error "Error sending message:" error ;;
            show_toast (destructive "Failed to send message")))
      (setLoading false).

Definition updateTypingStatus (typing : bool) (r : reply unit)
  : M state unit :=
  try_catch
    (_ <- await
            (Upsert typing_status
               [("user_id"%string, VStr me);
                ("conversation_with"%string, VStr peer);
                ("is_typing"%string, VBool typing)])
            r ;;
     ret tt)
    (fun error => console_error "Error updating typing status:" error).

(** [key] is [e.key], [shift] is [e.shiftKey]. *)
Definition handleKeyPress (newMessage_ : jsstring) (key : jsstring)
           (shift : bool) (salt : N) (r_insert r_typing : reply unit)
  : M state unit :=
  if eqb key (str "Enter") && negb shift then
    sendMessage newMessage_ salt r_insert ;;
    updateTypingStatus false r_typing
  else ret tt.

(** [handleInputChange] as created by a render in which the state
    variable [newMessage] had the value [newMessage_]: that is the value
    the time-out callback later compares [value] with. *)
Definition handleInputChange (newMessage_ : jsstring) (value : jsstring)
           (r : reply unit) : M state unit :=
  setNewMessage value ;;
  updateTypingStatus (0 <? JS.length value) r ;;
  setTimeout (TypingTimeout me peer value newMessage_) 3000.

(** What the render shows for one message: whose it is, the text, and
    the time.  [format_time created_at] stands for
    [format(new Date(message.created_at), 'HH:mm')] of the date library,
    which depends on the time zone and throws a [RangeError] when the
    string is not a date; the text is computed first. *)
Definition render_message (format_time : jsstring -> completion jsstring)
           (message : Message.t) : M state (bool * jsstring * jsstring) :=
  text <- decryptMessage AES_decrypt (Message.content message) ;;
  time <- lift (format_time (Message.created_at message)) ;;
  ret (eqb (Message.sender_id message) me, text, time).

Fixpoint render_messages (format_time : jsstring -> completion jsstring)
         (ms : list Message.t) : M state (list (bool * jsstring * jsstring)) :=
  match ms with
  | [] => ret []
  | m :: rest =>
      b <- render_message format_time m ;;
      bs <- render_messages format_time rest ;;
      ret (b :: bs)
  end.

(** [messages.map(...)] over the current state. *)
Definition render (format_time : jsstring -> completion jsstring)
  : M state (list (bool * jsstring * jsstring)) :=
  s <- get_state ;;
  render_messages format_time (messages s).

End Component.

(** The body of the time-out callback scheduled by [handleInputChange]:
    [if (value === newMessage) updateTypingStatus(false)], with the
    variables the closure captured. *)
Definition run_timer (cb : timer_cb) (r : reply unit) : M state unit :=
  if eqb (cb_value cb) (cb_newMessage cb) then
    try_catch
      (_ <- await
              (Upsert typing_status
                 [("user_id"%string, VStr (cb_user cb));
                  ("conversation_with"%string, VStr (cb_peer cb));
                  ("is_typing"%string, VBool false)])
              r ;;
       ret tt)
      (fun error => console_error "Error updating typing status:" error)
  else ret tt.

End ChatWindow.

(* ================================================================== *)
(** ** components/chat/ChatSidebar.tsx *)
(* ================================================================== *)

Module ChatSidebar.

Record state := mkState {
  profiles_ : list Profile.t;
  searchTerm : jsstring;
  loading : bool
}.

Definition setProfiles (v : list Profile.t) : M state unit :=
  modify (fun s => mkState v (searchTerm s) (loading s)).
Definition setSearchTerm (v : jsstring) : M state unit :=
  modify (fun s => mkState (profiles_ s) v (loading s)).
Definition setLoading (v : bool) : M state unit :=
  modify (fun s => mkState (profiles_ s) (searchTerm s) v).

Section Component.
Variable currentUser : User.t.

Definition fetchProfiles (r : reply (list Profile.t)) : M state unit :=
  try_finally
    (try_catch
       (res <- await
                 (Select profiles (FNeq "user_id" (User.id currentUser))
                         "last_seen" false)
                 r ;;
        match snd res with
        | Some error => throw error
        | None => setProfiles (ChatWindow.or_empty (fst res))
        end)
       (fun error =>
          console_error "Error fetching profiles:" error ;;
          show_toast (destructive "Failed to load contacts")))
    (setLoading false).

Definition mount (r : reply (list Profile.t)) : M state unit :=
  fetchProfiles r ;;
  send (ChannelSubscribe (str "profiles-changes")).

Definition on_profiles_change (r : reply (list Profile.t))
  : M state unit :=
  fetchProfiles r.

Definition teardown : M state unit :=
  send (ChannelUnsubscribe (str "profiles-changes")).

Definition handleSignOut (r : reply unit) : M state unit :=
  _ <- await AuthSignOut r ;; ret tt.

End Component.

End ChatSidebar.

(* ================================================================== *)
(** ** components/chat/SettingsModal.tsx *)
(* ================================================================== *)

Module SettingsModal.

Record state := mkState {
  displayName : jsstring;
  bio : jsstring;
  notifications : bool;
  onlineStatus : bool;
  theme : jsstring;
  loading : bool
}.

Definition setDisplayName (v : jsstring) : M state unit :=
  modify (fun s => mkState v (bio s) (notifications s) (onlineStatus s)
                           (theme s) (loading s)).
Definition setBio (v : jsstring) : M state unit :=
  modify (fun s => mkState (displayName s) v (notifications s)
                           (onlineStatus s) (theme s) (loading s)).
Definition setNotifications (v : bool) : M state unit :=
  modify (fun s => mkState (displayName s) (bio s) v (onlineStatus s)
                           (theme s) (loading s)).
Definition setOnlineStatus (v : bool) : M state unit :=
  modify (fun s => mkState (displayName s) (bio s) (notifications s) v
                           (theme s) (loading s)).
Definition setTheme (v : jsstring) : M state unit :=
  modify (fun s => mkState (displayName s) (bio s) (notifications s)
                           (onlineStatus s) v (loading s)).
Definition setLoading (v : bool) : M state unit :=
  modify (fun s => mkState (displayName s) (bio s) (notifications s)
                           (onlineStatus s) (theme s) v).

Section Component.
Variable currentUser : User.t.

(** [displayName_], [bio_]: the state variables as the handler's render
    saw them. *)
Definition handleSaveProfile (displayName_ bio_ : jsstring)
           (r_profile r_auth : reply unit) : M state unit :=
  setLoading true ;;
  try_finally
    (try_catch
       (res <- await
                 (Update profiles
                    [("display_name"%string, VStr displayName_);
                     ("bio"%string, VStr bio_)]
                    (FEq "user_id" (User.id currentUser)))
                 r_profile ;;
        match snd res with
        | Some profileError => throw profileError
        | None =>
            res' <- await
                      (AuthUpdateUser
                         [("display_name"%string, VStr displayName_)])
                      r_auth ;;
            match snd res' with
            | Some authError => throw authError
            | None =>
                show_toast
                  (Toast "Profile Updated!"
                         "Your profile has been saved successfully."
                         None)
            end
        end)
       (fun error =>
          console_error "Error updating profile:" error ;;
          show_toast (destructive "Failed to update profile")))
    (setLoading false).

(** [onOpenChange(false)] belongs to the parent and closes the dialog. *)
Definition handleSignOut (r : reply unit) : M state unit :=
  _ <- await AuthSignOut r ;; ret tt.

End Component.

End SettingsModal.

(* ================================================================== *)
(** ** components/auth/AuthForm.tsx *)
(* ================================================================== *)

Module AuthForm.

Record state := mkState {
  email : jsstring;
  password : jsstring;
  username : jsstring;
  displayName : jsstring;
  loading : bool
}.

Definition setEmail (v : jsstring) : M state unit :=
  modify (fun s => mkState v (password s) (username s) (displayName s)
                           (loading s)).
Definition setPassword (v : jsstring) : M state unit :=
  modify (fun s => mkState (email s) v (username s) (displayName s)
                           (loading s)).
Definition setUsername (v : jsstring) : M state unit :=
  modify (fun s => mkState (email s) (password s) v (displayName s)
                           (loading s)).
Definition setDisplayName (v : jsstring) : M state unit :=
  modify (fun s => mkState (email s) (password s) (username s) v
                           (loading s)).
Definition setLoading (v : bool) : M state unit :=
  modify (fun s => mkState (email s) (password s) (username s)
                           (displayName s) v).

(** The handlers read the form fields of the render that created them,
    passed here as [f]. *)
Definition handleSignUp (f : state) (r : reply unit) : M state unit :=
  setLoading true ;;
  try_finally
    (try_catch
       (res <- await
                 (AuthSignUp (email f) (password f)
                    [("username"%string, VStr (username f));
                     ("display_name"%string, VStr (displayName f))])
                 r ;;
        match snd res with
        | Some error => show_toast (destructive error)
        | None =>
            show_toast
              (Toast "Welcome to ChatVibe!"
                     "Account created successfully. Please check your email to verify your account."
                     None)
        end)
       (fun _ => show_toast (destructive "An unexpected error occurred")))
    (setLoading false).

Definition handleSignIn (f : state) (r : reply unit) : M state unit :=
  setLoading true ;;
  try_finally
    (try_catch
       (res <- await (AuthSignIn (email f) (password f)) r ;;
        match snd res with
        | Some error => show_toast (destructive error)
        | None =>
            show_toast
              (Toast "Welcome back!"
                     "Successfully signed in to ChatVibe" None)
        end)
       (fun _ => show_toast (destructive "An unexpected error occurred")))
    (setLoading false).

End AuthForm.

(* ================================================================== *)
(** ** The client as a whole: every handler that can run *)
(* ================================================================== *)

(** Run a component's computation on its part of a larger state. *)
Definition zoom {S T A} (get : S -> T) (set : T -> S -> S) (m : M T A)
  : M S A :=
  fun s e =>
    match m (get s) e with
    | (r, t', e') => (r, set t' s, e')
    end.

(** Time passes: [dt] milliseconds. *)
Definition advance {St} (dt : N) : M St unit :=
  fun s e => (Normal tt, s,
    mkEnv (console e) (toasts e) (requests e) (timers e) (clock e + dt)).

(** The first pending timer whose deadline has been reached, and the
    timers that remain. *)
Fixpoint take_due (t : N) (ts : list (N * timer_cb))
  : option (timer_cb * list (N * timer_cb)) :=
  match ts with
  | [] => None
  | (d, cb) :: rest =>
      if d <=? t then Some (cb, rest)
      else match take_due t rest with
           | Some (cb', rest') => Some (cb', (d, cb) :: rest')
           | None => None
           end
  end.

(** The event loop runs one due time-out callback, if there is one. *)
Definition fire_timer (r : reply unit) : M ChatWindow.state unit :=
  fun s e =>
    match take_due (clock e) (timers e) with
    | None => (Normal tt, s, e)
    | Some (cb, rest) =>
        ChatWindow.run_timer cb r s
          (mkEnv (console e) (toasts e) (requests e) rest (clock e))
    end.

Module Client.

Record state := mkState {
  layout : ChatLayout.state;
  window : ChatWindow.state;
  sidebar : ChatSidebar.state;
  settings : SettingsModal.state;
  auth : AuthForm.state
}.

Definition in_layout {A} : M ChatLayout.state A -> M state A :=
  zoom layout (fun v s => mkState v (window s) (sidebar s) (settings s)
                                  (auth s)).
Definition in_window {A} : M ChatWindow.state A -> M state A :=
  zoom window (fun v s => mkState (layout s) v (sidebar s) (settings s)
                                  (auth s)).
Definition in_sidebar {A} : M ChatSidebar.state A -> M state A :=
  zoom sidebar (fun v s => mkState (layout s) (window s) v (settings s)
                                   (auth s)).
Definition in_settings {A} : M SettingsModal.state A -> M state A :=
  zoom settings (fun v s => mkState (layout s) (window s) (sidebar s) v
                                    (auth s)).
Definition in_auth {A} : M AuthForm.state A -> M state A :=
  zoom auth (fun v s => mkState (layout s) (window s) (sidebar s)
                                (settings s) v).

(** Everything that can happen to the client: DOM events, subscription
    callbacks, effect set-up and clean-up, timers, renders; each carries
    what the environment contributes (event data, backend replies, the
    cipher's salt, the date library's formatting). *)
Inductive event :=
(* ChatLayout *)
| LayoutMount (r : reply unit)
| LayoutTeardown (r : reply unit)
| PresenceSync
| PresenceJoin
| PresenceLeave
| SubscribeStatus (status : jsstring) (r : reply unit)
| BeforeUnload (r : reply unit)
| VisibilityChange (hidden : bool) (r : reply unit)
| SelectChat (userId : jsstring) (profile : Profile.t)
(* ChatWindow *)
| WindowMount (r : reply (list Message.t))
| WindowTeardown
| MessageInsert (newMsg : Message.t)
| TypingChange (payload_new : option jsflag)
| SendClick (salt : N) (r : reply unit)
| KeyPress (key : jsstring) (shift : bool) (salt : N)
           (r_insert r_typing : reply unit)
| InputChange (value : jsstring) (r : reply unit)
| Render (format_time : jsstring -> completion jsstring)
| TimerFire (r : reply unit)
| Tick (dt : N)
(* ChatSidebar *)
| SidebarMount (r : reply (list Profile.t))
| SidebarTeardown
| ProfilesChange (r : reply (list Profile.t))
| SidebarSignOut (r : reply unit)
| SearchInput (v : jsstring)
(* SettingsModal *)
| SaveProfile (r_profile r_auth : reply unit)
| SettingsSignOut (r : reply unit)
| DisplayNameInput (v : jsstring)
| BioInput (v : jsstring)
| NotificationsSwitch (v : bool)
| OnlineStatusSwitch (v : bool)
| ThemeClick (v : jsstring)
(* AuthForm *)
| SignUpClick (r : reply unit)
| SignInClick (r : reply unit)
| EmailInput (v : jsstring)
| PasswordInput (v : jsstring)
| UsernameInput (v : jsstring)
| AuthDisplayNameInput (v : jsstring).

Section Step.
Variable AES_encrypt : N -> jsstring -> jsstring -> completion jsstring.
Variable AES_decrypt : jsstring -> jsstring -> completion jsstring.
Variable currentUser : User.t.

(** [ChatWindow] is rendered only while a profile is selected; its
    handlers are the closures of the latest render, so they see the
    current props and state. *)
Definition with_window (k : Profile.t -> ChatWindow.state ->
                            M ChatWindow.state unit) : M state unit :=
  s <- get_state ;;
  match ChatLayout.selectedProfile (layout s) with
  | Some p => in_window (k p (window s))
  | None => ret tt
  end.

Definition step (ev : event) : M state unit :=
  match ev with
  | LayoutMount r => in_layout (ChatLayout.mount currentUser r)
  | LayoutTeardown r => in_layout (ChatLayout.teardown currentUser r)
  | PresenceSync => in_layout ChatLayout.on_presence_sync
  | PresenceJoin => in_layout ChatLayout.on_presence_join
  | PresenceLeave => in_layout ChatLayout.on_presence_leave
  | SubscribeStatus st r =>
      in_layout (ChatLayout.on_subscribe_status currentUser st r)
  | BeforeUnload r =>
      in_layout (ChatLayout.handleBeforeUnload currentUser r)
  | VisibilityChange h r =>
      in_layout (ChatLayout.handleVisibilityChange currentUser h r)
  | SelectChat u p => in_layout (ChatLayout.handleSelectChat u p)
  | WindowMount r =>
      with_window (fun p _ => ChatWindow.mount currentUser p r)
  | WindowTeardown =>
      with_window (fun p _ => ChatWindow.teardown currentUser p)
  | MessageInsert m =>
      with_window (fun _ _ => ChatWindow.on_message_insert m)
  | TypingChange b =>
      with_window (fun _ _ => ChatWindow.on_typing_change b)
  | SendClick salt r =>
      with_window (fun p w =>
        ChatWindow.sendMessage AES_encrypt currentUser p
          (ChatWindow.newMessage w) salt r)
  | KeyPress key shift salt r1 r2 =>
      with_window (fun p w =>
        ChatWindow.handleKeyPress AES_encrypt currentUser p
          (ChatWindow.newMessage w) key shift salt r1 r2)
  | InputChange v r =>
      with_window (fun p w =>
        ChatWindow.handleInputChange currentUser p
          (ChatWindow.newMessage w) v r)
  | Render format_time =>
      with_window (fun p _ =>
        _ <- ChatWindow.render AES_decrypt currentUser format_time ;; ret tt)
  | TimerFire r => in_window (fire_timer r)
  | Tick dt => advance dt
  | SidebarMount r => in_sidebar (ChatSidebar.mount currentUser r)
  | SidebarTeardown => in_sidebar ChatSidebar.teardown
  | ProfilesChange r =>
      in_sidebar (ChatSidebar.on_profiles_change currentUser r)
  | SidebarSignOut r => in_sidebar (ChatSidebar.handleSignOut r)
  | SearchInput v => in_sidebar (ChatSidebar.setSearchTerm v)
  | SaveProfile r1 r2 =>
      s <- get_state ;;
      in_settings
        (SettingsModal.handleSaveProfile currentUser
           (SettingsModal.displayName (settings s))
           (SettingsModal.bio (settings s)) r1 r2)
  | SettingsSignOut r => in_settings (SettingsModal.handleSignOut r)
  | DisplayNameInput v => in_settings (SettingsModal.setDisplayName v)
  | BioInput v => in_settings (SettingsModal.setBio v)
  | NotificationsSwitch v =>
      in_settings (SettingsModal.setNotifications v)
  | OnlineStatusSwitch v => in_settings (SettingsModal.setOnlineStatus v)
  | ThemeClick v => in_settings (SettingsModal.setTheme v)
  | SignUpClick r =>
      s <- get_state ;; in_auth (AuthForm.handleSignUp (auth s) r)
  | SignInClick r =>
      s <- get_state ;; in_auth (AuthForm.handleSignIn (auth s) r)
  | EmailInput v => in_auth (AuthForm.setEmail v)
  | PasswordInput v => in_auth (AuthForm.setPassword v)
  | UsernameInput v => in_auth (AuthForm.setUsername v)
  | AuthDisplayNameInput v => in_auth (AuthForm.setDisplayName v)
  end.

(** A run of the client: the events are handled one after the other;
    an exception escaping a handler (an unhandled rejection) does not
    stop the event loop. *)
Fixpoint run (evs : list event) (s : state) (e : Env) : state * Env :=
  match evs with
  | [] => (s, e)
  | ev :: rest =>
      match step ev s e with
      | (_, s', e') => run rest s' e'
      end
  end.

End Step.

End Client.

(* ================================================================== *)
(** ** Vocabulary of the properties *)
(* ================================================================== *)

(** What is assumed of the cipher library.  Decryption undoes a successful
    encryption under the same key; and the serialised ciphertext (salted
    header, padded blocks, base64) is longer than the plaintext. *)
Definition decrypt_inverts
  (AES_encrypt : N -> jsstring -> jsstring -> completion jsstring)
  (AES_decrypt : jsstring -> jsstring -> completion jsstring) : Prop :=
  forall salt m k c,
    AES_encrypt salt m k = Normal c -> AES_decrypt c k = Normal m.

Definition ciphertext_longer
  (AES_encrypt : N -> jsstring -> jsstring -> completion jsstring) : Prop :=
  forall salt m k c,
    AES_encrypt salt m k = Normal c -> (List.length m < List.length c)%nat.

(** [decryptMessage(encryptMessage(s))] *)
Definition roundtrip {St}
  (AES_encrypt : N -> jsstring -> jsstring -> completion jsstring)
  (AES_decrypt : jsstring -> jsstring -> completion jsstring)
  (salt : N) (s : jsstring) : M St jsstring :=
  c <- encryptMessage AES_encrypt salt s ;;
  decryptMessage AES_decrypt c.

(** Projections of the outcome of a computation. *)
Definition result_of {St A} (x : completion A * St * Env) : completion A :=
  fst (fst x).
Definition state_of {St A} (x : completion A * St * Env) : St :=
  snd (fst x).
Definition env_of {St A} (x : completion A * St * Env) : Env := snd x.

(** The console after one more [console.error]. *)
Definition logged_error (label : string) (x : js_error) (e : Env) : Env :=
  mkEnv (console e ++ [ConsoleError label x]) (toasts e) (requests e)
        (timers e) (clock e).

(** The requests issued between two environments. *)
Definition issued (e e' : Env) (new : list backend_op) : Prop :=
  requests e' = requests e ++ new.

(** A handler [respects] a relation between the situation before and after
    it when every run of it is related. *)
Definition respects {St A} (R : St -> Env -> St -> Env -> Prop)
           (m : M St A) : Prop :=
  forall s e, R s e (state_of (m s e)) (env_of (m s e)).

(** All requests a handler issues satisfy [P], which may refer to the time
    of the call; the handler does not move the clock. *)
Definition only_issues {St} (P : N -> backend_op -> Prop)
  : St -> Env -> St -> Env -> Prop :=
  fun _ e _ e' =>
    clock e' = clock e /\
    exists new, issued e e' new /\ Forall (P (clock e)) new.

(** A handler keeps [proj] of the state. *)
Definition keeps {St X} (proj : St -> X) : St -> Env -> St -> Env -> Prop :=
  fun s _ s' _ => proj s' = proj s.

(** Relations that can be checked one statement at a time: they hold
    across steps that issue no request and leave state and clock alone
    (logging, toasts, queueing a timer), and they compose. *)
Class Stepwise {St} (R : St -> Env -> St -> Env -> Prop) : Prop := {
  stepwise_silent :
    forall s e e',
      requests e' = requests e -> clock e' = clock e -> R s e s e';
  stepwise_trans :
    forall s1 e1 s2 e2 s3 e3,
      R s1 e1 s2 e2 -> R s2 e2 s3 e3 -> R s1 e1 s3 e3
}.

(** The table an operation writes to, if it is a write. *)
Definition written_table (op : backend_op) : option table :=
  match op with
  | Insert t _ | Upsert t _ | Update t _ _ | Delete t _ => Some t
  | _ => None
  end.

(** The row an operation writes. *)
Definition written_row (op : backend_op) : option row :=
  match op with
  | Insert _ r | Upsert _ r | Update _ r _ => Some r
  | _ => None
  end.

(** The request [updateUserStatus(status)] makes at time [t]. *)
Definition status_update (currentUser : User.t) (status : jsstring) (t : N)
  : backend_op :=
  Update profiles
    [("status"%string, VStr status); ("last_seen"%string, VTime t)]
    (FEq "user_id" (User.id currentUser)).

Definition presence_values : list jsstring :=
  [str "online"; str "away"; str "offline"].

(** [op], issued at time [t], is not a status write, or it is the request
    of [updateUserStatus] with one of the three values. *)
Definition status_write_ok (currentUser : User.t) (t : N) (op : backend_op)
  : Prop :=
  forall r, written_table op = Some profiles -> written_row op = Some r ->
            field "status" r <> None ->
            exists status, In status presence_values /\
                           op = status_update currentUser status t.

(** The messages the backend hands to the client with an event. *)
Definition delivered (ev : Client.event) : list Message.t :=
  match ev with
  | Client.WindowMount (Resolved (Some data) None) => data
  | Client.MessageInsert newMsg => [newMsg]
  | _ => []
  end.

(** The messages in state after a handler are those before or those in
    [D], each unchanged. *)
Definition messages_from (D : list Message.t)
  : ChatWindow.state -> Env -> ChatWindow.state -> Env -> Prop :=
  fun s _ s' _ =>
    forall m, In m (ChatWindow.messages s') ->
              In m (ChatWindow.messages s) \/ In m D.

(** The text [encryptMessage] returns for [message] when the cipher draws
    [salt]. *)
Definition encrypted_text
  (AES_encrypt : N -> jsstring -> jsstring -> completion jsstring)
  (salt : N) (message : jsstring) : jsstring :=
  match AES_encrypt salt message ENCRYPTION_KEY with
  | Normal encrypted => encrypted
  | Throw _ => message
  end.

(** The insert [sendMessage] makes for a given [content]. *)
Definition message_insert (currentUser : User.t) (selectedProfile : Profile.t)
           (content : jsstring) : backend_op :=
  Insert direct_messages
    [("sender_id"%string, VStr (User.id currentUser));
     ("receiver_id"%string, VStr (Profile.user_id selectedProfile));
     ("content"%string, VStr content)].

(** [op] leaves stored messages alone and stores only what [encryptMessage]
    returned: if it writes to [direct_messages] at all, it is the insert of
    [sendMessage], its content the encryption of a trimmed input. *)
Definition message_write_ok
  (AES_encrypt : N -> jsstring -> jsstring -> completion jsstring)
  (currentUser : User.t) (op : backend_op) : Prop :=
  written_table op = Some direct_messages ->
  exists p salt input,
    op = message_insert currentUser p
           (encrypted_text AES_encrypt salt (trim input)).

(** The upsert [updateTypingStatus(typing)] makes. *)
Definition typing_upsert (currentUser : User.t) (selectedProfile : Profile.t)
           (typing : bool) : backend_op :=
  Upsert typing_status
    [("user_id"%string, VStr (User.id currentUser));
     ("conversation_with"%string, VStr (Profile.user_id selectedProfile));
     ("is_typing"%string, VBool typing)].

(** The query [fetchMessages] makes. *)
Definition messages_query (currentUser : User.t) (selectedProfile : Profile.t)
  : backend_op :=
  Select direct_messages
    (ChatWindow.conversation_filter (User.id currentUser)
                                    (Profile.user_id selectedProfile))
    "created_at" true.

(** The text [decryptMessage] returns for [c]. *)
Definition decrypted_text
  (AES_decrypt : jsstring -> jsstring -> completion jsstring)
  (c : jsstring) : jsstring :=
  match AES_decrypt c ENCRYPTION_KEY with
  | Normal decrypted => or_else decrypted c
  | Throw _ => c
  end.



(* ================================================================== *)
(** ** A stand-in cipher *)
(* ================================================================== *)

(** A toy cipher with the interface and failure modes of the library: it
    refuses plaintext with surrogate code units (as UTF-8 encoding does for
    lone surrogates), prefixes a header and the salt, and shifts each code
    unit by an amount derived from salt and key.  It shows that the
    assumptions above can be met together and lets the handlers be
    evaluated on concrete inputs; it is not AES. *)
Module StandIn.

Definition header : jsstring := str "U2FsdGVkX1".

Definition is_surrogate (u : N) : bool := (0xD800 <=? u) && (u <=? 0xDFFF).

Definition shift (salt : N) (k : jsstring) : N :=
  salt + fold_right N.add 0 k.

Definition encrypt (salt : N) (m k : jsstring) : completion jsstring :=
  if existsb is_surrogate m then Throw "URIError: URI malformed"%string
  else Normal (header ++ salt :: List.map (fun u => u + shift salt k) m).

Fixpoint strip (p s : jsstring) : option jsstring :=
  match p, s with
  | [], _ => Some s
  | x :: p', y :: s' => if x =? y then strip p' s' else None
  | _ :: _, [] => None
  end.

Definition decrypt (c k : jsstring) : completion jsstring :=
  match strip header c with
  | Some (salt :: body) =>
      if forallb (fun u => shift salt k <=? u) body
      then Normal (List.map (fun u => u - shift salt k) body)
      else Throw "Error: Malformed UTF-8 data"%string
  | _ => Normal []
  end.


Definition env0 : Env := mkEnv [] [] [] [] 0.

Definition alice : User.t := User.mk (str "alice").
Definition bob : Profile.t :=
  Profile.mk (str "p2") (str "bob") (str "bob") (str "Bob") []
             (str "online") None (str "2024-05-01T10:00:00Z").

Definition msg (i : string) (from to_ : string) (c : string) (t : string)
  : Message.t :=
  Message.mk (str i) (str from) (str to_) (str c) (str t).

Definition client0 : Client.state :=
  Client.mkState (ChatLayout.mkState (Some bob)) ChatWindow.initial
    (ChatSidebar.mkState [] [] true)
    (SettingsModal.mkState [] [] true true (str "dark") false)
    (AuthForm.mkState [] [] [] [] false).

End StandIn.

(* ================================================================== *)
(** ** A stand-in for the date library *)
(* ================================================================== *)

(** Formats time stamps of the shape [YYYY-MM-DDTHH:MM...] by copying the
    hour and minute, and throws on anything else as the date library does
    on an invalid date.  It ignores time zones and serves to evaluate the
    render on concrete messages. *)
Module Sample.

Definition format_HHmm (created_at : jsstring) : completion jsstring :=
  match skipn 10 created_at with
  | t :: h1 :: h2 :: c :: m1 :: m2 :: _ =>
      if (t =? 84) && (c =? 58) then Normal [h1; h2; c; m1; m2]
      else Throw "RangeError: Invalid time value"%string
  | _ => Throw "RangeError: Invalid time value"%string
  end.

End Sample.

(* ================================================================== *)
(** ** Display helpers and the contact filter *)
(* ================================================================== *)

Module Display.

(** [s.split(sep)] for a separator of one code unit: the pieces between
    the occurrences of [sep], empty pieces included; never the empty
    array. *)
Fixpoint split (sep : N) (s : jsstring) : list jsstring :=
  match s with
  | [] => [[]]
  | u :: r =>
      if u =? sep then [] :: split sep r
      else match split sep r with
           | w :: ws => (u :: w) :: ws
           | [] => [[u]]
           end
  end.

(** [n[0]]: the first code unit as a string, [undefined] on [""]. *)
Definition char0 (n : jsstring) : option jsstring :=
  match n with
  | [] => None
  | u :: _ => Some [u]
  end.

(** [parts.join('')]: [undefined] elements count as the empty string. *)
Definition join (parts : list (option jsstring)) : jsstring :=
  List.concat
    (List.map (fun p => match p with Some s => s | None => [] end) parts).

Section Case.

(** [String.prototype.toUpperCase] and [toLowerCase]: Unicode case
    mappings of the engine, taken as given. *)
Variable toUpperCase : jsstring -> jsstring.
Variable toLowerCase : jsstring -> jsstring.

(** [name.split(' ').map(n => n[0]).join('').toUpperCase()]; the same
    function is declared in [ChatWindow], [ChatSidebar] and
    [SettingsModal]. *)
Definition getInitials (name : jsstring) : jsstring :=
  toUpperCase (join (List.map char0 (split 0x20 name))).

(** [s.startsWith(t)] and [s.includes(t)] on code units. *)
Fixpoint startsWith (s t : jsstring) : bool :=
  match t, s with
  | [], _ => true
  | _ :: _, [] => false
  | x :: t', y :: s' => (x =? y) && startsWith s' t'
  end.

Fixpoint includes (s t : jsstring) : bool :=
  startsWith s t ||
  match s with
  | [] => false
  | _ :: s' => includes s' t
  end.

(** [ChatSidebar]: the contacts shown for the current search term. *)
Definition filteredProfiles (st : ChatSidebar.state) : list Profile.t :=
  List.filter
    (fun profile =>
       includes (toLowerCase (Profile.username profile))
                (toLowerCase (ChatSidebar.searchTerm st))
       || includes (toLowerCase (Profile.display_name profile))
                   (toLowerCase (ChatSidebar.searchTerm st)))
    (ChatSidebar.profiles_ st).

End Case.

(** Lower-casing of the letters A to Z only, to try the filter on plain
    ASCII names. *)
Definition ascii_lower (s : jsstring) : jsstring :=
  List.map (fun u => if (65 <=? u) && (u <=? 90) then u + 32 else u) s.

End Display.

(* ================================================================== *)
(** ** Vocabulary of the further properties *)
(* ================================================================== *)

(** A handler that returns normally whatever it is given. *)
Definition returns {St A} (m : M St A) : Prop :=
  forall s e, exists a, result_of (m s e) = Normal a.

(** The channels opened and closed by a list of requests. *)
Definition subscribed (ops : list backend_op) : list jsstring :=
  List.flat_map
    (fun op => match op with ChannelSubscribe n => [n] | _ => [] end) ops.

Definition unsubscribed (ops : list backend_op) : list jsstring :=
  List.flat_map
    (fun op => match op with ChannelUnsubscribe n => [n] | _ => [] end) ops.

(** The column of a stored message a filter names; [None] for a column
    the table does not have. *)
Definition message_column (name : string) (m : Message.t) : option jsstring :=
  if String.eqb name "id" then Some (Message.id m)
  else if String.eqb name "sender_id" then Some (Message.sender_id m)
  else if String.eqb name "receiver_id" then Some (Message.receiver_id m)
  else if String.eqb name "content" then Some (Message.content m)
  else if String.eqb name "created_at" then Some (Message.created_at m)
  else None.

(** Whether a message passes a filter, as the backend evaluates [eq],
    [neq], [and] and [or]; [None] when the filter names an unknown
    column. *)
Fixpoint matches (f : filter) (m : Message.t) : option bool :=
  match f with
  | FEq c v => option_map (fun x => eqb x v) (message_column c m)
  | FNeq c v => option_map (fun x => negb (eqb x v)) (message_column c m)
  | FAnd f1 f2 =>
      match matches f1 m, matches f2 m with
      | Some a, Some b => Some (a && b)
      | _, _ => None
      end
  | FOr f1 f2 =>
      match matches f1 m, matches f2 m with
      | Some a, Some b => Some (a || b)
      | _, _ => None
      end
  end.

(** The stored message [m] carries the columns the inserted row [r]
    gave; [id] and [created_at] are the backend's. *)
Definition stored_from (r : row) (m : Message.t) : Prop :=
  field "sender_id" r = Some (VStr (Message.sender_id m)) /\
  field "receiver_id" r = Some (VStr (Message.receiver_id m)) /\
  field "content" r = Some (VStr (Message.content m)).

(** The row an insert carries. *)
Definition inserted_row (op : backend_op) : row :=
  match op with
  | Insert _ r => r
  | _ => []
  end.

(** The backend call answered by [r] failed with [x]: the answer carries
    an error, or the promise was rejected. *)
Definition fails {D} (r : reply D) (x : js_error) : Prop :=
  (exists d, r = Resolved d (Some x)) \/ r = Rejected x.

(** Events that set the typing indicator, edit the draft; events whose
    handler awaits outside any [try] or is the render. *)
Definition sets_indicator (ev : Client.event) : bool :=
  match ev with
  | Client.TypingChange (Some _) => true
  | _ => false
  end.

Definition edits_draft (ev : Client.event) : bool :=
  match ev with
  | Client.InputChange _ _ | Client.SendClick _ _
  | Client.KeyPress _ _ _ _ _ => true
  | _ => false
  end.

Definition may_throw (ev : Client.event) : bool :=
  match ev with
  | Client.SidebarSignOut _ | Client.SettingsSignOut _
  | Client.SubscribeStatus _ _ | Client.Render _ => true
  | _ => false
  end.

(** [{isTyping && (...)}]: the indicator is rendered when the flag is
    truthy. *)
Definition indicator_shown (st : ChatWindow.state) : bool :=
  match ChatWindow.isTyping st with
  | Flag b => b
  | Undefined => false
  end.

(** The requests a handler issues when run from [s] and [e]. *)
Definition issued_by {St A} (m : M St A) (s : St) (e : Env)
  : list backend_op :=
  skipn (List.length (requests e)) (requests (env_of (m s e))).

(** The filter of a query. *)
Definition filter_of (op : backend_op) : option filter :=
  match op with
  | Select _ flt _ _ => Some flt
  | _ => None
  end.

(** [t] occurs in [s] as a run of consecutive code units. *)
Definition occurs_in (t s : jsstring) : Prop :=
  exists pre post, s = pre ++ t ++ post.

(** Events that choose the conversation. *)
Definition selects_chat (ev : Client.event) : bool :=
  match ev with
  | Client.SelectChat _ _ => true
  | _ => false
  end.

(** A pending time-out whose callback will find [value] different from
    the [newMessage] it captured, and so do nothing. *)
Definition stale (t : N * timer_cb) : Prop :=
  cb_value (snd t) <> cb_newMessage (snd t).

(** [op] withdraws a typing flag. *)
Definition clears_typing (op : backend_op) : Prop :=
  exists r, op = Upsert typing_status r /\
            field "is_typing" r = Some (VBool false).

(** From pending time-outs that are all stale, a handler leaves only
    stale ones pending and withdraws no typing flag. *)
Definition flag_stays_up {St} : St -> Env -> St -> Env -> Prop :=
  fun _ e _ e' =>
    Forall stale (timers e) ->
    Forall stale (timers e') /\
    exists new, issued e e' new /\ Forall (fun op => ~ clears_typing op) new.

(** An event of a typing session in which the user neither presses a key
    handled by [handleKeyPress] nor empties the field: an input change
    carries a non-empty value different from the draft in state. *)
Definition keeps_typing (ev : Client.event) (s : Client.state) : bool :=
  match ev with
  | Client.KeyPress _ _ _ _ _ => false
  | Client.InputChange value _ =>
      truthy value && negb (eqb value (ChatWindow.newMessage (Client.window s)))
  | _ => true
  end.

Section Session.
Variable AES_encrypt : N -> jsstring -> jsstring -> completion jsstring.
Variable AES_decrypt : jsstring -> jsstring -> completion jsstring.
Variable currentUser : User.t.

(** [keeps_typing] checked at every event of a run. *)
Fixpoint typing_session (evs : list Client.event) (s : Client.state)
         (e : Env) : bool :=
  match evs with
  | [] => true
  | ev :: rest =>
      keeps_typing ev s &&
      typing_session rest
        (state_of (Client.step AES_encrypt AES_decrypt currentUser ev s e))
        (env_of (Client.step AES_encrypt AES_decrypt currentUser ev s e))
  end.

End Session.

(** The update [handleSaveProfile] makes. *)
Definition profile_update (currentUser : User.t) (displayName bio : jsstring)
  : backend_op :=
  Update profiles
    [("display_name"%string, VStr displayName); ("bio"%string, VStr bio)]
    (FEq "user_id" (User.id currentUser)).

(** The query [fetchProfiles] makes. *)
Definition profiles_query (currentUser : User.t) : backend_op :=
  Select profiles (FNeq "user_id" (User.id currentUser)) "last_seen" false.

(* ================================================================== *)
(** * Properties *)
(* ================================================================== *)

Unset Implicit Arguments.

(** ** Strings *)

Lemma eqb_eq (a b : jsstring) : eqb a b = true <-> a = b.
Proof.
  revert b; induction a as [|x a IH]; intros [|y b]; simpl;
    try (split; [discriminate | congruence]); try tauto.
  rewrite andb_true_iff, N.eqb_eq, IH.
  split; [intros [-> ->]; reflexivity | intros E; inversion E; auto].
Qed.

Lemma eqb_refl (a : jsstring) : eqb a a = true.
Proof. apply eqb_eq; reflexivity. Qed.

Lemma eqb_neq (a b : jsstring) : eqb a b = false <-> a <> b.
Proof.
  rewrite <- eqb_eq. destruct (eqb a b); split; congruence.
Qed.

Lemma truthy_false (s : jsstring) : truthy s = false <-> s = [].
Proof. destruct s; simpl; split; congruence. Qed.

Lemma truthy_true (s : jsstring) : truthy s = true <-> s <> [].
Proof. destruct s; simpl; split; congruence. Qed.

(** [trimStart] drops a prefix and stops at a character that is not white
    space. *)
Lemma trimStart_suffix (s : jsstring) :
  exists pre, s = pre ++ trimStart s.
Proof.
  induction s as [|u r [pre IH]]; simpl.
  - exists []; reflexivity.
  - destruct (is_white_space u).
    + exists (u :: pre); simpl; congruence.
    + exists []; reflexivity.
Qed.

Lemma trimStart_head (s : jsstring) (u : N) (r : jsstring) :
  trimStart s = u :: r -> is_white_space u = false.
Proof.
  induction s as [|v t IH]; simpl; [discriminate|].
  destruct (is_white_space v) eqn:E; [exact IH|].
  intros H; inversion H; subst; exact E.
Qed.

Lemma trim_head (s : jsstring) (u : N) (r : jsstring) :
  trim s = u :: r -> is_white_space u = false.
Proof.
  unfold trim, trimEnd. intros H.
  destruct (trimStart_suffix (rev (trimStart s))) as [pre E].
  apply (f_equal (@rev N)) in E.
  rewrite rev_involutive, rev_app_distr, H in E.
  simpl in E. eapply trimStart_head; exact E.
Qed.

Lemma trim_last (s : jsstring) (r : jsstring) (u : N) :
  trim s = r ++ [u] -> is_white_space u = false.
Proof.
  unfold trim, trimEnd. intros H.
  apply (f_equal (@rev N)) in H.
  rewrite rev_involutive, rev_app_distr in H. simpl in H.
  eapply trimStart_head; exact H.
Qed.

(** ** The stand-in cipher meets the assumptions *)

Lemma standin_unshift (d : N) (m : jsstring) :
  forallb (fun u => d <=? u) (List.map (fun u => u + d) m) = true /\
  List.map (fun u => u - d) (List.map (fun u => u + d) m) = m.
Proof.
  induction m as [|x m [IH1 IH2]]; simpl; [auto|].
  rewrite IH1, IH2. split.
  - rewrite andb_true_r. apply N.leb_le. lia.
  - f_equal. lia.
Qed.

Lemma standin_inverts : decrypt_inverts StandIn.encrypt StandIn.decrypt.
Proof.
  intros salt m k c. unfold StandIn.encrypt, StandIn.decrypt.
  destruct (existsb StandIn.is_surrogate m); [discriminate|].
  intros [= <-].
  change (StandIn.strip StandIn.header _)
    with (Some (salt :: List.map (fun u => u + StandIn.shift salt k) m)).
  destruct (standin_unshift (StandIn.shift salt k) m) as [-> ->].
  reflexivity.
Qed.

Lemma standin_longer : ciphertext_longer StandIn.encrypt.
Proof.
  intros salt m k c. unfold StandIn.encrypt.
  destruct (existsb StandIn.is_surrogate m); [discriminate|].
  intros [= <-].
  simpl. rewrite length_map. lia.
Qed.

(** ** lib/encryption.ts *)

Section EncryptionFacts.

Variable AES_encrypt : N -> jsstring -> jsstring -> completion jsstring.
Variable AES_decrypt : jsstring -> jsstring -> completion jsstring.
Variable St : Type.

Lemma encryptMessage_ok salt m c (s : St) e :
  AES_encrypt salt m ENCRYPTION_KEY = Normal c ->
  encryptMessage AES_encrypt salt m s e = (Normal c, s, e).
Proof.
  intros H. unfold encryptMessage, try_catch, bind, lift, ret.
  rewrite H. reflexivity.
Qed.

Lemma encryptMessage_throw salt m x (s : St) e :
  AES_encrypt salt m ENCRYPTION_KEY = Throw x ->
  encryptMessage AES_encrypt salt m s e =
  (Normal m, s, logged_error "Encryption error:" x e).
Proof.
  intros H. unfold encryptMessage, try_catch, bind, lift, ret.
  rewrite H. reflexivity.
Qed.

Lemma decryptMessage_ok c d (s : St) e :
  AES_decrypt c ENCRYPTION_KEY = Normal d ->
  decryptMessage AES_decrypt c s e = (Normal (or_else d c), s, e).
Proof.
  intros H. unfold decryptMessage, try_catch, bind, lift, ret.
  rewrite H. reflexivity.
Qed.

Lemma decryptMessage_throw c x (s : St) e :
  AES_decrypt c ENCRYPTION_KEY = Throw x ->
  decryptMessage AES_decrypt c s e =
  (Normal c, s, logged_error "Decryption error:" x e).
Proof.
  intros H. unfold decryptMessage, try_catch, bind, lift, ret.
  rewrite H. reflexivity.
Qed.

(** [decryptMessage] always returns [decrypted_text], leaves the state
    alone and touches only the console. *)
Lemma decryptMessage_text c (s : St) e :
  exists e',
    decryptMessage AES_decrypt c s e =
    (Normal (decrypted_text AES_decrypt c), s, e') /\
    toasts e' = toasts e /\ requests e' = requests e /\
    timers e' = timers e /\ clock e' = clock e.
Proof.
  unfold decrypted_text.
  destruct (AES_decrypt c ENCRYPTION_KEY) as [d|x] eqn:E.
  - rewrite (decryptMessage_ok _ _ s e E). eauto 6.
  - rewrite (decryptMessage_throw _ _ s e E). eexists; split; [reflexivity|].
    simpl; auto.
Qed.

Lemma encryptMessage_total salt m (s : St) e :
  exists c e',
    encryptMessage AES_encrypt salt m s e = (Normal c, s, e') /\
    toasts e' = toasts e /\ requests e' = requests e /\
    timers e' = timers e /\ clock e' = clock e.
Proof.
  destruct (AES_encrypt salt m ENCRYPTION_KEY) as [c|x] eqn:E.
  - rewrite (encryptMessage_ok _ _ _ s e E). eauto 7.
  - rewrite (encryptMessage_throw _ _ _ s e E). do 2 eexists.
    split; [reflexivity|]. simpl; auto.
Qed.

Lemma decrypted_text_nonempty c : c <> [] -> decrypted_text AES_decrypt c <> [].
Proof.
  intros Hc. unfold decrypted_text.
  destruct (AES_decrypt c ENCRYPTION_KEY) as [d|x]; [|exact Hc].
  unfold or_else. destruct d; simpl; [exact Hc | discriminate].
Qed.

End EncryptionFacts.

(** C1, as stated, does not hold: for the empty string the round trip
    [decryptMessage(encryptMessage(""))] is not [""], whatever cipher
    meeting the assumptions is used.  The decrypted text is empty, hence
    falsy, and [decrypted || encryptedMessage] hands back the ciphertext. *)
Lemma roundtrip_identity_fails_on_empty :
  ~ (forall enc dec,
        decrypt_inverts enc dec -> ciphertext_longer enc ->
        forall (salt : N) (e : Env),
          result_of (roundtrip enc dec salt [] tt e) = Normal []).
Proof.
  intros H.
  specialize (H StandIn.encrypt StandIn.decrypt standin_inverts
                standin_longer 7 StandIn.env0).
  vm_compute in H. discriminate H.
Qed.

(** C1 (amended): for every non-empty string [s] that the cipher encrypts
    without throwing, decrypting the result of encrypting [s] under the
    fixed key returns [s]; neither call logs, throws or changes state. *)
Theorem roundtrip_identity_nonempty
  (enc : N -> jsstring -> jsstring -> completion jsstring)
  (dec : jsstring -> jsstring -> completion jsstring)
  (St : Type) (salt : N) (s c : jsstring) (st : St) (e : Env) :
  decrypt_inverts enc dec ->
  s <> [] ->
  enc salt s ENCRYPTION_KEY = Normal c ->
  roundtrip enc dec salt s st e = (Normal s, st, e).
Proof.
  intros Hinv Hs Henc. unfold roundtrip, bind.
  rewrite (encryptMessage_ok enc _ salt s _ st e Henc).
  rewrite (decryptMessage_ok dec _ c _ st e (Hinv _ _ _ _ Henc)).
  unfold or_else. apply truthy_true in Hs. rewrite Hs. reflexivity.
Qed.

Lemma roundtrip_identity_nonempty_witness :
  roundtrip StandIn.encrypt StandIn.decrypt 7 (str "hi") tt StandIn.env0
  = (Normal (str "hi"), tt, StandIn.env0).
Proof.
  apply (@roundtrip_identity_nonempty StandIn.encrypt StandIn.decrypt unit 7
           (str "hi")
           (StandIn.header ++ [7; 104 + StandIn.shift 7 ENCRYPTION_KEY;
                               105 + StandIn.shift 7 ENCRYPTION_KEY])).
  - exact standin_inverts.
  - discriminate.
  - reflexivity.
Defined.

(** The condition on the cipher call cannot be dropped from the
    assumptions made here: a cipher meeting them may refuse a plaintext
    which, read as a ciphertext, it decrypts to something else. *)
Lemma roundtrip_after_refused_encryption :
  decrypt_inverts StandIn.encrypt StandIn.decrypt /\
  ciphertext_longer StandIn.encrypt /\
  StandIn.encrypt 0 (StandIn.header ++ [0; 0xD83D]) ENCRYPTION_KEY
  = Throw "URIError: URI malformed"%string /\
  result_of (roundtrip StandIn.encrypt StandIn.decrypt 0
               (StandIn.header ++ [0; 0xD83D]) tt StandIn.env0)
  <> Normal (StandIn.header ++ [0; 0xD83D]).
Proof.
  split; [exact standin_inverts|]. split; [exact standin_longer|].
  split; [reflexivity|]. vm_compute. discriminate.
Qed.

(** C3: if the cipher call inside [encryptMessage] (resp.
    [decryptMessage]) throws, the function logs the error and returns its
    argument unchanged; and whatever the cipher does, both functions return
    normally: no exception escapes. *)
Theorem cipher_exceptions_are_swallowed
  (enc : N -> jsstring -> jsstring -> completion jsstring)
  (dec : jsstring -> jsstring -> completion jsstring)
  (St : Type) (salt : N) (message encryptedMessage : jsstring)
  (st : St) (e : Env) :
  (forall x, enc salt message ENCRYPTION_KEY = Throw x ->
             encryptMessage enc salt message st e =
             (Normal message, st, logged_error "Encryption error:" x e)) /\
  (forall x, dec encryptedMessage ENCRYPTION_KEY = Throw x ->
             decryptMessage dec encryptedMessage st e =
             (Normal encryptedMessage, st,
              logged_error "Decryption error:" x e)) /\
  (exists v e', encryptMessage enc salt message st e = (Normal v, st, e')) /\
  (exists v e', decryptMessage dec encryptedMessage st e = (Normal v, st, e')).
Proof.
  repeat split.
  - intros x Hx. exact (encryptMessage_throw enc _ salt message _ st e Hx).
  - intros x Hx. exact (decryptMessage_throw dec _ encryptedMessage _ st e Hx).
  - destruct (encryptMessage_total enc _ salt message st e) as (c & e' & H & _).
    eauto.
  - destruct (decryptMessage_text dec _ encryptedMessage st e) as (e' & H & _).
    eauto.
Qed.

Lemma cipher_exceptions_are_swallowed_witness :
  encryptMessage StandIn.encrypt 7 [0xD83D] tt StandIn.env0 =
  (Normal [0xD83D], tt,
   logged_error "Encryption error:" "URIError: URI malformed"%string
                StandIn.env0) /\
  decryptMessage StandIn.decrypt (StandIn.header ++ [9; 3]) tt StandIn.env0 =
  (Normal (StandIn.header ++ [9; 3]), tt,
   logged_error "Decryption error:" "Error: Malformed UTF-8 data"%string
                StandIn.env0).
Proof.
  destruct (@cipher_exceptions_are_swallowed StandIn.encrypt StandIn.decrypt
              unit 7 [0xD83D] (StandIn.header ++ [9; 3]) tt StandIn.env0)
    as (Henc & Hdec & _).
  split.
  - apply Henc. reflexivity.
  - apply Hdec. reflexivity.
Defined.

(** C9: [decryptMessage] never returns the empty string on a non-empty
    argument; whenever the underlying decryption yields the empty string it
    returns its argument instead; in particular
    [decryptMessage(encryptMessage(""))] is the ciphertext, which is not
    [""]. *)
Theorem decryptMessage_falls_back_on_empty
  (enc : N -> jsstring -> jsstring -> completion jsstring)
  (dec : jsstring -> jsstring -> completion jsstring)
  (St : Type) (st : St) (e : Env) :
  decrypt_inverts enc dec ->
  ciphertext_longer enc ->
  (forall c, c <> [] ->
     exists v e', decryptMessage dec c st e = (Normal v, st, e') /\ v <> []) /\
  (forall c, dec c ENCRYPTION_KEY = Normal [] ->
     decryptMessage dec c st e = (Normal c, st, e)) /\
  (forall salt ct, enc salt [] ENCRYPTION_KEY = Normal ct ->
     roundtrip enc dec salt [] st e = (Normal ct, st, e) /\ ct <> []).
Proof.
  intros Hinv Hlen. repeat split.
  - intros c Hc.
    destruct (decryptMessage_text dec _ c st e) as (e' & H & _).
    exists (decrypted_text dec c), e'. split; [exact H|].
    apply decrypted_text_nonempty; exact Hc.
  - intros c Hc. rewrite (decryptMessage_ok dec _ c _ st e Hc). reflexivity.
  - unfold roundtrip, bind.
    rewrite (encryptMessage_ok enc _ salt [] _ st e H).
    rewrite (decryptMessage_ok dec _ ct _ st e (Hinv _ _ _ _ H)). reflexivity.
  - intros ->. apply Hlen in H. simpl in H. lia.
Qed.

Lemma decryptMessage_falls_back_on_empty_witness :
  roundtrip StandIn.encrypt StandIn.decrypt 7 [] tt StandIn.env0 =
  (Normal (StandIn.header ++ [7]), tt, StandIn.env0) /\
  StandIn.header ++ [7] <> [].
Proof.
  destruct (@decryptMessage_falls_back_on_empty StandIn.encrypt
              StandIn.decrypt unit tt StandIn.env0
              standin_inverts standin_longer) as (_ & _ & H).
  apply H. reflexivity.
Defined.

(** ** The message subscription *)

Lemma find_by_id_none (i : jsstring) (prev : list Message.t) :
  ChatWindow.find_by_id i prev = None <-> ~ In i (List.map Message.id prev).
Proof.
  unfold ChatWindow.find_by_id.
  induction prev as [|m prev IH]; simpl; [tauto|].
  destruct (eqb (Message.id m) i) eqn:E.
  - apply eqb_eq in E. split; [discriminate | intros H; exfalso; auto].
  - apply eqb_neq in E. rewrite IH. tauto.
Qed.

Lemma append_unless_present_known (newMsg : Message.t) (prev : list Message.t) :
  In (Message.id newMsg) (List.map Message.id prev) ->
  ChatWindow.append_unless_present newMsg prev = prev.
Proof.
  intros H. unfold ChatWindow.append_unless_present.
  destruct (ChatWindow.find_by_id (Message.id newMsg) prev) eqn:E;
    [reflexivity|].
  apply find_by_id_none in E. contradiction.
Qed.

Lemma append_unless_present_fresh (newMsg : Message.t) (prev : list Message.t) :
  ~ In (Message.id newMsg) (List.map Message.id prev) ->
  ChatWindow.append_unless_present newMsg prev = prev ++ [newMsg].
Proof.
  intros H. unfold ChatWindow.append_unless_present.
  apply find_by_id_none in H. rewrite H. reflexivity.
Qed.

Lemma append_unless_present_NoDup (newMsg : Message.t) (prev : list Message.t) :
  NoDup (List.map Message.id prev) ->
  NoDup (List.map Message.id (ChatWindow.append_unless_present newMsg prev)).
Proof.
  intros H.
  destruct (in_dec (list_eq_dec N.eq_dec) (Message.id newMsg)
                   (List.map Message.id prev)) as [Hin|Hout].
  - rewrite append_unless_present_known; assumption.
  - rewrite append_unless_present_fresh by assumption.
    rewrite map_app. simpl.
    apply NoDup_rev in H. rewrite <- rev_involutive. apply NoDup_rev.
    rewrite rev_app_distr. simpl. constructor; [|exact H].
    rewrite <- in_rev. exact Hout.
Qed.

(** What the subscription callback does to the client. *)
Lemma step_MessageInsert enc dec currentUser newMsg s e :
  ChatWindow.messages
    (Client.window
       (fst (Client.run enc dec currentUser [Client.MessageInsert newMsg]
               s e)))
  = ChatWindow.messages (Client.window s)
  \/
  ChatWindow.messages
    (Client.window
       (fst (Client.run enc dec currentUser [Client.MessageInsert newMsg]
               s e)))
  = ChatWindow.append_unless_present newMsg
      (ChatWindow.messages (Client.window s)).
Proof.
  simpl. unfold Client.step, Client.with_window, bind, get_state.
  destruct (ChatLayout.selectedProfile (Client.layout s)); simpl; auto.
Qed.

Lemma run_app enc dec currentUser evs1 evs2 s e :
  Client.run enc dec currentUser (evs1 ++ evs2) s e =
  Client.run enc dec currentUser evs2
    (fst (Client.run enc dec currentUser evs1 s e))
    (snd (Client.run enc dec currentUser evs1 s e)).
Proof.
  revert s e. induction evs1 as [|ev evs1 IH]; intros s e; simpl;
    [reflexivity|].
  destruct (Client.step enc dec currentUser ev s e) as [[r s'] e'].
  apply IH.
Qed.

(** C4: for every insert notification handled by the message
    subscription, the list is left unchanged if it already contains a
    message with that id, and otherwise the new message is appended at the
    end; the callback sets the state to exactly that list and issues no
    request.  Consequently, from a list with pairwise distinct ids, no
    sequence of notifications, duplicates included, leads to a list with
    two entries of the same id. *)
Theorem duplicate_notifications_are_dropped
  (enc : N -> jsstring -> jsstring -> completion jsstring)
  (dec : jsstring -> jsstring -> completion jsstring)
  (currentUser : User.t) :
  (forall newMsg prev,
      In (Message.id newMsg) (List.map Message.id prev) ->
      ChatWindow.append_unless_present newMsg prev = prev) /\
  (forall newMsg prev,
      ~ In (Message.id newMsg) (List.map Message.id prev) ->
      ChatWindow.append_unless_present newMsg prev = prev ++ [newMsg]) /\
  (forall newMsg st e,
      exists e',
        ChatWindow.on_message_insert newMsg st e =
        (Normal tt,
         ChatWindow.mkState
           (ChatWindow.append_unless_present newMsg (ChatWindow.messages st))
           (ChatWindow.newMessage st) (ChatWindow.loading st)
           (ChatWindow.isTyping st),
         e') /\
        requests e' = requests e) /\
  (forall notifications s e,
      NoDup (List.map Message.id (ChatWindow.messages (Client.window s))) ->
      NoDup (List.map Message.id
               (ChatWindow.messages
                  (Client.window
                     (fst (Client.run enc dec currentUser
                             (List.map Client.MessageInsert notifications)
                             s e)))))).
Proof.
  split; [exact append_unless_present_known|].
  split; [exact append_unless_present_fresh|].
  split.
  - intros newMsg st e. eexists. split; reflexivity.
  - intros ns. induction ns as [|n ns IH]; intros s e H; [exact H|].
    change (List.map Client.MessageInsert (n :: ns))
      with ([Client.MessageInsert n] ++ List.map Client.MessageInsert ns).
    rewrite run_app. apply IH.
    destruct (step_MessageInsert enc dec currentUser n s e) as [E|E];
      rewrite E; [exact H|].
    apply append_unless_present_NoDup; exact H.
Qed.

Lemma duplicate_notifications_are_dropped_witness :
  List.map Message.id
    (ChatWindow.messages
       (Client.window
          (fst (Client.run StandIn.encrypt StandIn.decrypt StandIn.alice
                  (List.map Client.MessageInsert
                     [StandIn.msg "m1" "bob" "alice" "x" "t1";
                      StandIn.msg "m2" "alice" "bob" "y" "t2";
                      StandIn.msg "m1" "bob" "alice" "x" "t1";
                      StandIn.msg "m2" "alice" "bob" "y" "t2"])
                  StandIn.client0 StandIn.env0))))
  = [str "m1"; str "m2"] /\
  NoDup (List.map Message.id
    (ChatWindow.messages
       (Client.window
          (fst (Client.run StandIn.encrypt StandIn.decrypt StandIn.alice
                  (List.map Client.MessageInsert
                     [StandIn.msg "m1" "bob" "alice" "x" "t1";
                      StandIn.msg "m2" "alice" "bob" "y" "t2";
                      StandIn.msg "m1" "bob" "alice" "x" "t1";
                      StandIn.msg "m2" "alice" "bob" "y" "t2"])
                  StandIn.client0 StandIn.env0))))).
Proof.
  split; [reflexivity|].
  apply (duplicate_notifications_are_dropped StandIn.encrypt StandIn.decrypt
           StandIn.alice).
  simpl. constructor.
Defined.

(** ** Sending a message *)

Ltac run_handler :=
  cbv [bind ret throw lift try_catch try_finally get_state modify now
       console_log console_error show_toast await send setTimeout
       ChatWindow.setMessages ChatWindow.setNewMessage ChatWindow.setLoading
       ChatWindow.setIsTyping encryptMessage decryptMessage
       result_of state_of env_of issued fst snd
       requests toasts console timers clock
       ChatWindow.messages ChatWindow.newMessage ChatWindow.loading
       ChatWindow.isTyping].

Lemma encrypted_text_spec enc (St : Type) salt m (st : St) e :
  result_of (encryptMessage enc salt m st e) = Normal (encrypted_text enc salt m).
Proof.
  unfold encrypted_text. run_handler.
  destruct (enc salt m ENCRYPTION_KEY); reflexivity.
Qed.

Lemma sendMessage_blank enc currentUser p nm salt r st e :
  trim nm = [] ->
  ChatWindow.sendMessage enc currentUser p nm salt r st e = (Normal tt, st, e).
Proof.
  intros H. unfold ChatWindow.sendMessage. rewrite H. reflexivity.
Qed.

Lemma sendMessage_accepted enc currentUser p nm salt d st e :
  trim nm <> [] ->
  exists e',
    ChatWindow.sendMessage enc currentUser p nm salt (Resolved d None) st e =
    (Normal tt,
     ChatWindow.mkState (ChatWindow.messages st) [] false
                        (ChatWindow.isTyping st),
     e') /\
    issued e e' [message_insert currentUser p
                   (encrypted_text enc salt (trim nm))] /\
    toasts e' = toasts e /\ timers e' = timers e /\ clock e' = clock e.
Proof.
  intros H. apply truthy_true in H.
  unfold ChatWindow.sendMessage, encrypted_text, message_insert.
  rewrite H. run_handler.
  destruct (enc salt (trim nm) ENCRYPTION_KEY); destruct st, e;
    eexists; repeat split; reflexivity.
Qed.

Lemma sendMessage_refused enc currentUser p nm salt r x st e :
  trim nm <> [] ->
  (exists d, r = Resolved d (Some x)) \/ r = Rejected x ->
  exists e',
    ChatWindow.sendMessage enc currentUser p nm salt r st e =
    (Normal tt,
     ChatWindow.mkState (ChatWindow.messages st) (ChatWindow.newMessage st)
                        false (ChatWindow.isTyping st),
     e') /\
    issued e e' [message_insert currentUser p
                   (encrypted_text enc salt (trim nm))] /\
    toasts e' = toasts e ++ [destructive "Failed to send message"] /\
    timers e' = timers e /\ clock e' = clock e.
Proof.
  intros H Hr. apply truthy_true in H.
  unfold ChatWindow.sendMessage, encrypted_text, message_insert.
  rewrite H. run_handler.
  destruct Hr as [[d ->] | ->];
    destruct (enc salt (trim nm) ENCRYPTION_KEY); destruct st, e;
    eexists; repeat split; reflexivity.
Qed.

(** C8: if the input trims to the empty string, [sendMessage] returns at
    once: no request, no change of state, nothing logged or shown.
    Otherwise it issues exactly one request, the insert whose content is
    what [encryptMessage] returns for the trimmed input, which neither
    begins nor ends with white space; when the backend accepts the insert
    the input is cleared, and when it does not the input is kept and an
    error toast is shown. *)
Theorem sendMessage_guards_and_trims
  (enc : N -> jsstring -> jsstring -> completion jsstring)
  (currentUser : User.t) (p : Profile.t)
  (newMessage : jsstring) (salt : N) (r : reply unit)
  (st : ChatWindow.state) (e : Env) :
  (trim newMessage = [] ->
   ChatWindow.sendMessage enc currentUser p newMessage salt r st e
   = (Normal tt, st, e)) /\
  (trim newMessage <> [] ->
   let out := ChatWindow.sendMessage enc currentUser p newMessage salt r st e in
   let content := encrypted_text enc salt (trim newMessage) in
   result_of (encryptMessage enc salt (trim newMessage) st e) = Normal content /\
   issued e (env_of out) [message_insert currentUser p content] /\
   (forall d, r = Resolved d None ->
              ChatWindow.newMessage (state_of out) = [] /\
              toasts (env_of out) = toasts e) /\
   (forall x, (exists d, r = Resolved d (Some x)) \/ r = Rejected x ->
              ChatWindow.newMessage (state_of out) = ChatWindow.newMessage st /\
              toasts (env_of out) =
              toasts e ++ [destructive "Failed to send message"]) /\
   ChatWindow.messages (state_of out) = ChatWindow.messages st /\
   (forall u rest, trim newMessage = u :: rest -> is_white_space u = false) /\
   (forall rest u, trim newMessage = rest ++ [u] -> is_white_space u = false)).
Proof.
  split; [apply sendMessage_blank|].
  intros Hne out content. subst out content.
  split; [apply encrypted_text_spec|].
  assert (Hcases : (exists d, r = Resolved d None) \/
                   (exists x, (exists d, r = Resolved d (Some x)) \/
                              r = Rejected x)).
  { destruct r as [d [x|]|x]; eauto 6. }
  destruct Hcases as [[d ->] | [x Hx]].
  - destruct (sendMessage_accepted enc currentUser p newMessage salt d st e Hne)
      as (e' & -> & Hi & Ht & _).
    unfold state_of, env_of; simpl.
    split; [exact Hi|].
    split; [intros _ _; split; [reflexivity | exact Ht]|].
    split; [intros y [[d' Hy] | Hy]; discriminate Hy|].
    split; [reflexivity|].
    split; [exact (trim_head newMessage) | exact (trim_last newMessage)].
  - destruct (sendMessage_refused enc currentUser p newMessage salt r x st e Hne Hx)
      as (e' & -> & Hi & Ht & _).
    unfold state_of, env_of; simpl.
    split; [exact Hi|].
    split; [intros d ->; destruct Hx as [[d' Hy] | Hy]; discriminate Hy|].
    split; [intros _ _; split; [reflexivity | exact Ht]|].
    split; [reflexivity|].
    split; [exact (trim_head newMessage) | exact (trim_last newMessage)].
Qed.

Lemma sendMessage_guards_and_trims_witness :
  ChatWindow.sendMessage StandIn.encrypt StandIn.alice StandIn.bob
    (str "   ") 5 (Resolved None None) ChatWindow.initial StandIn.env0
  = (Normal tt, ChatWindow.initial, StandIn.env0) /\
  issued StandIn.env0
    (env_of (ChatWindow.sendMessage StandIn.encrypt StandIn.alice StandIn.bob
               (str " hi ") 5 (Resolved None None)
               (ChatWindow.mkState [] (str " hi ") false false)
               StandIn.env0))
    [message_insert StandIn.alice StandIn.bob
       (encrypted_text StandIn.encrypt 5 (str "hi"))].
Proof.
  split.
  - apply (sendMessage_guards_and_trims StandIn.encrypt StandIn.alice
             StandIn.bob (str "   ") 5 (Resolved None None)
             ChatWindow.initial StandIn.env0).
    reflexivity.
  - apply (sendMessage_guards_and_trims StandIn.encrypt StandIn.alice
             StandIn.bob (str " hi ") 5 (Resolved None None)
             (ChatWindow.mkState [] (str " hi ") false false) StandIn.env0).
    discriminate.
Defined.

(** C2: whenever [sendMessage] persists a message, the content it inserts
    is what [encryptMessage] returns for the trimmed input under the shared
    key; that content is the plaintext itself exactly when the cipher call
    throws, and then the plaintext is inserted unchanged, [sendMessage]
    returns normally and no toast is shown. *)
Theorem persisted_content_is_encryptMessage_output
  (enc : N -> jsstring -> jsstring -> completion jsstring)
  (currentUser : User.t) (p : Profile.t)
  (newMessage : jsstring) (salt : N) (d : option unit)
  (st : ChatWindow.state) (e : Env) :
  ciphertext_longer enc ->
  trim newMessage <> [] ->
  let out := ChatWindow.sendMessage enc currentUser p newMessage salt
               (Resolved d None) st e in
  let content := encrypted_text enc salt (trim newMessage) in
  result_of (encryptMessage enc salt (trim newMessage) st e) = Normal content /\
  issued e (env_of out) [message_insert currentUser p content] /\
  (content = trim newMessage <->
   exists x, enc salt (trim newMessage) ENCRYPTION_KEY = Throw x) /\
  (forall x, enc salt (trim newMessage) ENCRYPTION_KEY = Throw x ->
             issued e (env_of out)
                    [message_insert currentUser p (trim newMessage)] /\
             result_of out = Normal tt /\
             toasts (env_of out) = toasts e).
Proof.
  intros Hlen Hne out content. subst out content.
  destruct (sendMessage_accepted enc currentUser p newMessage salt d st e Hne)
    as (e' & -> & Hi & Ht & _).
  unfold result_of at 2; unfold env_of; simpl.
  split; [apply encrypted_text_spec|].
  split; [exact Hi|].
  split.
  - unfold encrypted_text.
    destruct (enc salt (trim newMessage) ENCRYPTION_KEY) as [c|x] eqn:E.
    + split.
      * intros ->. apply Hlen in E. lia.
      * intros [x Hx]. discriminate Hx.
    + split; eauto.
  - intros x Hx. unfold encrypted_text in Hi. rewrite Hx in Hi.
    split; [exact Hi|]. split; [reflexivity | exact Ht].
Qed.

Lemma persisted_content_is_encryptMessage_output_witness :
  issued StandIn.env0
    (env_of (ChatWindow.sendMessage StandIn.encrypt StandIn.alice StandIn.bob
               [32; 0xD83D] 5 (Resolved None None)
               (ChatWindow.mkState [] [32; 0xD83D] false false)
               StandIn.env0))
    [message_insert StandIn.alice StandIn.bob [0xD83D]].
Proof.
  apply (persisted_content_is_encryptMessage_output StandIn.encrypt
           StandIn.alice StandIn.bob [32; 0xD83D] 5 None
           (ChatWindow.mkState [] [32; 0xD83D] false false) StandIn.env0
           standin_longer)
    with (x := "URIError: URI malformed"%string).
  - discriminate.
  - reflexivity.
Defined.

(** ** Fetching the conversation *)

Lemma fetchMessages_loaded currentUser p data st e :
  exists e',
    ChatWindow.fetchMessages currentUser p (Resolved data None) st e =
    (Normal tt,
     ChatWindow.mkState (ChatWindow.or_empty data) (ChatWindow.newMessage st)
                        (ChatWindow.loading st) (ChatWindow.isTyping st),
     e') /\
    issued e e' [messages_query currentUser p] /\
    toasts e' = toasts e.
Proof.
  unfold ChatWindow.fetchMessages, messages_query. run_handler.
  destruct st, e. eexists. split; [reflexivity|]. split; reflexivity.
Qed.

Lemma fetchMessages_failed currentUser p r x st e :
  (exists d, r = Resolved d (Some x)) \/ r = Rejected x ->
  exists e',
    ChatWindow.fetchMessages currentUser p r st e = (Normal tt, st, e') /\
    issued e e' [messages_query currentUser p] /\
    toasts e' = toasts e ++ [destructive "Failed to load messages"].
Proof.
  unfold ChatWindow.fetchMessages, messages_query.
  intros [[d ->] | ->]; run_handler; destruct st, e; eexists;
    (split; [reflexivity|]); split; reflexivity.
Qed.



(** ** The typing indicator *)

(** What [handleInputChange] does: the new value is stored, the typing
    flag is upserted with [value.length > 0], and one more time-out is
    queued behind those already pending. *)
Lemma handleInputChange_effects currentUser p nm value r st e :
  exists e',
    ChatWindow.handleInputChange currentUser p nm value r st e =
    (Normal tt,
     ChatWindow.mkState (ChatWindow.messages st) value (ChatWindow.loading st)
                        (ChatWindow.isTyping st),
     e') /\
    issued e e' [typing_upsert currentUser p (0 <? JS.length value)] /\
    timers e' =
    timers e ++ [(clock e + 3000,
                  TypingTimeout (User.id currentUser) (Profile.user_id p)
                                value nm)] /\
    clock e' = clock e.
Proof.
  unfold ChatWindow.handleInputChange, ChatWindow.updateTypingStatus,
    typing_upsert.
  run_handler.
  destruct r as [d err|x]; destruct st, e; eexists;
    (split; [reflexivity|]); (split; [reflexivity|]); split; reflexivity.
Qed.

(** The callback compares the new value with the [newMessage] its render
    saw; when they differ it does nothing at all. *)
Lemma stale_timeout_is_inert cb r st e :
  cb_value cb <> cb_newMessage cb ->
  ChatWindow.run_timer cb r st e = (Normal tt, st, e).
Proof.
  intros H. apply eqb_neq in H. unfold ChatWindow.run_timer.
  rewrite H. reflexivity.
Qed.

(** C5, on the code: after an input change to a [value] different from
    the [newMessage] the handler's render saw, with no other timer pending
    and no further input, the time-out fires after 3 seconds and issues no
    request.  The only write is the upsert made at the input change, so a
    flag set to [true] is not cleared. *)
Theorem typing_timeout_does_not_clear
  (currentUser : User.t) (p : Profile.t) (newMessage value : jsstring)
  (r r' : reply unit) (st : ChatWindow.state) (e : Env) :
  value <> newMessage ->
  timers e = [] ->
  let typed := ChatWindow.handleInputChange currentUser p newMessage value r
                 st e in
  let waited := advance 3000 (state_of typed) (env_of typed) in
  let fired := fire_timer r' (state_of waited) (env_of waited) in
  issued e (env_of fired)
         [typing_upsert currentUser p (0 <? JS.length value)] /\
  timers (env_of fired) = [] /\
  clock (env_of fired) = clock e + 3000.
Proof.
  intros Hneq Hnone typed waited fired. subst typed waited fired.
  destruct (handleInputChange_effects currentUser p newMessage value r st e)
    as (e' & -> & Hi & Ht & Hc).
  unfold state_of, env_of, advance, fire_timer; simpl.
  rewrite Ht, Hnone, Hc. simpl.
  replace (clock e + 3000 <=? clock e + 3000) with true
    by (symmetry; apply N.leb_le; lia).
  rewrite stale_timeout_is_inert by exact Hneq.
  simpl. auto.
Qed.

Lemma typing_timeout_does_not_clear_witness :
  requests
    (env_of
       (fire_timer (Resolved None None)
          (state_of
             (advance 3000
                (state_of
                   (ChatWindow.handleInputChange StandIn.alice StandIn.bob []
                      (str "h") (Resolved None None) ChatWindow.initial
                      StandIn.env0))
                (env_of
                   (ChatWindow.handleInputChange StandIn.alice StandIn.bob []
                      (str "h") (Resolved None None) ChatWindow.initial
                      StandIn.env0))))
          (env_of
             (advance 3000
                (state_of
                   (ChatWindow.handleInputChange StandIn.alice StandIn.bob []
                      (str "h") (Resolved None None) ChatWindow.initial
                      StandIn.env0))
                (env_of
                   (ChatWindow.handleInputChange StandIn.alice StandIn.bob []
                      (str "h") (Resolved None None) ChatWindow.initial
                      StandIn.env0))))))
  = [typing_upsert StandIn.alice StandIn.bob true].
Proof.
  assert (Hneq : str "h" <> []) by discriminate.
  exact (proj1 (typing_timeout_does_not_clear StandIn.alice StandIn.bob []
                  (str "h") (Resolved None None) (Resolved None None)
                  ChatWindow.initial StandIn.env0 Hneq eq_refl)).
Defined.

(** ** Reasoning about handlers one statement at a time *)

Section Structural.

Context {St : Type} (R : St -> Env -> St -> Env -> Prop) `{!Stepwise R}.

Lemma stepwise_refl s e : R s e s e.
Proof. apply stepwise_silent; reflexivity. Qed.

Lemma respects_ret A (a : A) : respects R (ret a).
Proof. intros s e. apply stepwise_refl. Qed.

Lemma respects_throw A x : respects R (@throw St A x).
Proof. intros s e. apply stepwise_refl. Qed.

Lemma respects_lift A (c : completion A) : respects R (lift c).
Proof. intros s e. apply stepwise_refl. Qed.

Lemma respects_get_state : respects R get_state.
Proof. intros s e. apply stepwise_refl. Qed.

Lemma respects_now : respects R now.
Proof. intros s e. apply stepwise_refl. Qed.

Lemma respects_console_log label : respects R (console_log label).
Proof. intros s e. apply stepwise_silent; reflexivity. Qed.

Lemma respects_console_error label x : respects R (console_error label x).
Proof. intros s e. apply stepwise_silent; reflexivity. Qed.

Lemma respects_show_toast t : respects R (show_toast t).
Proof. intros s e. apply stepwise_silent; reflexivity. Qed.

Lemma respects_setTimeout cb delay : respects R (setTimeout cb delay).
Proof. intros s e. apply stepwise_silent; reflexivity. Qed.

Lemma respects_bind A B (m : M St A) (k : A -> M St B) :
  respects R m -> (forall a, respects R (k a)) -> respects R (bind m k).
Proof.
  intros Hm Hk s e. specialize (Hm s e).
  unfold bind, state_of, env_of in *.
  destruct (m s e) as [[[a|x] s'] e']; simpl in *; [|exact Hm].
  eapply stepwise_trans; [exact Hm | apply Hk].
Qed.

Lemma respects_try_catch A (body : M St A) handler :
  respects R body -> (forall x, respects R (handler x)) ->
  respects R (try_catch body handler).
Proof.
  intros Hm Hk s e. specialize (Hm s e).
  unfold try_catch, state_of, env_of in *.
  destruct (body s e) as [[[a|x] s'] e']; simpl in *; [exact Hm|].
  eapply stepwise_trans; [exact Hm | apply Hk].
Qed.

Lemma respects_try_finally A (body : M St A) fin :
  respects R body -> respects R fin -> respects R (try_finally body fin).
Proof.
  intros Hm Hf s e. specialize (Hm s e).
  unfold try_finally, state_of, env_of in *.
  destruct (body s e) as [[r s'] e']; simpl in *.
  specialize (Hf s' e').
  destruct (fin s' e') as [[[u|x] s''] e'']; simpl in *;
    eapply stepwise_trans; eauto.
Qed.

End Structural.

(** Running a component inside the client. *)
Lemma respects_zoom S T A (RT : T -> Env -> T -> Env -> Prop)
      (RS : S -> Env -> S -> Env -> Prop) (get : S -> T) (set : T -> S -> S)
      (m : M T A) :
  (forall s e t' e', RT (get s) e t' e' -> RS s e (set t' s) e') ->
  respects RT m -> respects RS (zoom get set m).
Proof.
  intros Hlift Hm s e. specialize (Hm (get s) e).
  unfold zoom, state_of, env_of in *.
  destruct (m (get s) e) as [[r t'] e']; simpl in *. auto.
Qed.

(** *** Handlers that keep part of the state *)

#[local] Instance keeps_stepwise St X (proj : St -> X) : Stepwise (keeps proj).
Proof.
  split; unfold keeps.
  - intros; reflexivity.
  - intros; congruence.
Qed.

Lemma keeps_modify St X (proj : St -> X) (f : St -> St) :
  (forall s, proj (f s) = proj s) -> respects (keeps proj) (modify f).
Proof. intros H s e. apply H. Qed.

Lemma keeps_await St X (proj : St -> X) D op (r : reply D) :
  respects (keeps proj) (await op r).
Proof. intros s e. destruct r; reflexivity. Qed.

Lemma keeps_send St X (proj : St -> X) op : respects (keeps proj) (send op).
Proof. intros s e. reflexivity. Qed.

Lemma keeps_advance St X (proj : St -> X) dt :
  respects (keeps proj) (advance dt).
Proof. intros s e. reflexivity. Qed.

(** *** Handlers whose requests all satisfy a predicate *)

#[local] Instance only_issues_stepwise St P : Stepwise (@only_issues St P).
Proof.
  split; unfold only_issues, issued.
  - intros s e e' Hr Hc. split; [exact Hc|].
    exists []. rewrite app_nil_r. auto.
  - intros _ e1 _ e2 _ e3 (Hc1 & n1 & H1 & F1) (Hc2 & n2 & H2 & F2).
    split; [congruence|].
    exists (n1 ++ n2). rewrite H2, H1, app_assoc. split; [reflexivity|].
    apply Forall_app. split; [exact F1|]. rewrite <- Hc1. exact F2.
Qed.

Lemma only_issues_modify St P (f : St -> St) :
  respects (only_issues P) (modify f).
Proof.
  intros s e. unfold only_issues, issued. simpl.
  split; [reflexivity|]. exists []. rewrite app_nil_r. auto.
Qed.

Lemma only_issues_await St P D op (r : reply D) :
  (forall t, P t op) -> respects (@only_issues St P) (await op r).
Proof.
  intros H s e. unfold only_issues, issued.
  destruct r; simpl; (split; [reflexivity|]); exists [op]; auto.
Qed.

Lemma only_issues_send St P op :
  (forall t, P t op) -> respects (@only_issues St P) (send op).
Proof.
  intros H s e. unfold only_issues, issued. simpl.
  split; [reflexivity|]. exists [op]; auto.
Qed.

Lemma only_issues_zoom S T A P (get : S -> T) (set : T -> S -> S)
      (m : M T A) :
  respects (only_issues P) m -> respects (only_issues P) (zoom get set m).
Proof. apply respects_zoom. intros s e t' e' H. exact H. Qed.

(** ** Every handler of the client *)

Create HintDb handlers discriminated.

#[local] Hint Unfold
  ChatLayout.mount ChatLayout.teardown ChatLayout.on_presence_sync
  ChatLayout.on_presence_join ChatLayout.on_presence_leave
  ChatLayout.on_subscribe_status ChatLayout.handleBeforeUnload
  ChatLayout.handleVisibilityChange ChatLayout.handleSelectChat
  ChatWindow.mount ChatWindow.teardown ChatWindow.on_message_insert
  ChatWindow.on_typing_change ChatWindow.fetchMessages
  ChatWindow.updateTypingStatus ChatWindow.handleKeyPress
  ChatWindow.handleInputChange ChatWindow.render ChatWindow.render_message
  ChatWindow.run_timer
  ChatWindow.setMessages ChatWindow.setNewMessage ChatWindow.setLoading
  ChatWindow.setIsTyping
  ChatSidebar.fetchProfiles ChatSidebar.mount ChatSidebar.on_profiles_change
  ChatSidebar.teardown ChatSidebar.handleSignOut ChatSidebar.setProfiles
  ChatSidebar.setSearchTerm ChatSidebar.setLoading
  SettingsModal.handleSaveProfile SettingsModal.handleSignOut
  SettingsModal.setDisplayName SettingsModal.setBio
  SettingsModal.setNotifications SettingsModal.setOnlineStatus
  SettingsModal.setTheme SettingsModal.setLoading
  AuthForm.handleSignUp AuthForm.handleSignIn AuthForm.setEmail
  AuthForm.setPassword AuthForm.setUsername AuthForm.setDisplayName
  AuthForm.setLoading
  Client.with_window Client.in_layout Client.in_window Client.in_sidebar
  Client.in_settings Client.in_auth
  encryptMessage decryptMessage : handlers.

(** Decompose a handler along its statements; [prim] deals with the
    statements the relation at hand is sensitive to. *)
Ltac stepwise prim :=
  repeat first
    [ progress intros
    | prim
    | apply respects_ret | apply respects_throw | apply respects_lift
    | apply respects_get_state | apply respects_now
    | apply respects_console_log | apply respects_console_error
    | apply respects_show_toast | apply respects_setTimeout
    | apply respects_bind | apply respects_try_catch
    | apply respects_try_finally
    | match goal with
      | |- respects _ (match ?x with _ => _ end) => destruct x
      end
    | match goal with
      | |- Stepwise _ =>
          first [ apply only_issues_stepwise | apply keeps_stepwise ]
      end ].

Ltac message_write_ok_tac :=
  intros; unfold message_write_ok; simpl; intros Hw; discriminate Hw.

Ltac issues_prim solveP :=
  first [ apply only_issues_modify
        | apply only_issues_zoom
        | apply only_issues_await; solveP
        | apply only_issues_send; solveP ].

Lemma fire_timer_issues P r :
  (forall t u v, P t (Upsert typing_status
                        [("user_id"%string, VStr u);
                         ("conversation_with"%string, VStr v);
                         ("is_typing"%string, VBool false)])) ->
  respects (only_issues P) (fire_timer r).
Proof.
  intros HP s e. unfold fire_timer.
  destruct (take_due (clock e) (timers e)) as [[cb rest]|].
  - assert (H : respects (only_issues P) (ChatWindow.run_timer cb r)).
    { autounfold with handlers.
      stepwise ltac:(issues_prim ltac:(intros; apply HP)). }
    exact (H s (mkEnv (console e) (toasts e) (requests e) rest (clock e))).
  - apply stepwise_refl, only_issues_stepwise.
Qed.

Lemma render_messages_issues P dec currentUser fmt ms :
  respects (only_issues P) (ChatWindow.render_messages dec currentUser fmt ms).
Proof.
  induction ms as [|m ms IH]; simpl.
  - stepwise fail.
  - autounfold with handlers.
    stepwise ltac:(first [exact IH | issues_prim fail]).
Qed.


Lemma sendMessage_issues enc currentUser p nm salt r :
  respects (only_issues (fun _ => message_write_ok enc currentUser))
           (ChatWindow.sendMessage enc currentUser p nm salt r).
Proof.
  intros s e. unfold only_issues.
  destruct (list_eq_dec N.eq_dec (trim nm) []) as [Hb|Hne].
  - rewrite (sendMessage_blank enc currentUser p nm salt r s e Hb).
    unfold env_of, issued; simpl. split; [reflexivity|].
    exists []. rewrite app_nil_r. auto.
  - assert (Hok : Forall (message_write_ok enc currentUser)
                    [message_insert currentUser p
                       (encrypted_text enc salt (trim nm))]).
    { constructor; [|constructor]. intros _. eauto. }
    destruct r as [d [x|]|x].
    + destruct (sendMessage_refused enc currentUser p nm salt _ x s e Hne
                  (or_introl (ex_intro _ d eq_refl)))
        as (e' & -> & Hi & _ & _ & Hc);
        unfold env_of; simpl; eauto.
    + destruct (sendMessage_accepted enc currentUser p nm salt d s e Hne)
        as (e' & -> & Hi & _ & _ & Hc);
        unfold env_of; simpl; eauto.
    + destruct (sendMessage_refused enc currentUser p nm salt _ x s e Hne
                  (or_intror eq_refl))
        as (e' & -> & Hi & _ & _ & Hc);
        unfold env_of; simpl; eauto.
Qed.

Lemma step_issues_message_writes enc dec currentUser ev :
  (forall dt, ev <> Client.Tick dt) ->
  respects (only_issues (fun _ => message_write_ok enc currentUser))
           (Client.step enc dec currentUser ev).
Proof.
  intros Hev.
  destruct ev; simpl;
    try (exfalso; eapply Hev; reflexivity);
    autounfold with handlers; unfold ChatLayout.updateUserStatus;
    stepwise ltac:(first
      [ apply sendMessage_issues
      | apply fire_timer_issues; message_write_ok_tac
      | apply render_messages_issues
      | issues_prim message_write_ok_tac ]).
Qed.

(** *** The message list in state *)

Lemma fire_timer_keeps X (proj : ChatWindow.state -> X) r :
  respects (keeps proj) (fire_timer r).
Proof.
  intros s e. unfold fire_timer.
  destruct (take_due (clock e) (timers e)) as [[cb rest]|].
  - assert (H : respects (keeps proj) (ChatWindow.run_timer cb r)).
    { autounfold with handlers.
      stepwise ltac:(apply keeps_await). }
    exact (H s (mkEnv (console e) (toasts e) (requests e) rest (clock e))).
  - reflexivity.
Qed.

Lemma render_messages_keeps X (proj : ChatWindow.state -> X) dec currentUser
      fmt ms :
  respects (keeps proj) (ChatWindow.render_messages dec currentUser fmt ms).
Proof.
  induction ms as [|m ms IH]; simpl.
  - stepwise fail.
  - autounfold with handlers. stepwise ltac:(exact IH).
Qed.

Ltac keeps_prim :=
  first
    [ apply keeps_await | apply keeps_send | apply keeps_advance
    | apply keeps_modify; intros []; reflexivity
    | apply fire_timer_keeps | apply render_messages_keeps
    | apply (respects_zoom _ _ _ (keeps ChatWindow.messages));
      [ intros ? ? ? ? Hk; exact Hk | ]
    | apply (respects_zoom _ _ _ (fun _ _ _ _ => True));
      [ intros; reflexivity | intros ? ?; exact I ] ].

Lemma step_keeps_messages enc dec currentUser ev :
  (forall r, ev <> Client.WindowMount r) ->
  (forall newMsg, ev <> Client.MessageInsert newMsg) ->
  respects (keeps (fun s => ChatWindow.messages (Client.window s)))
           (Client.step enc dec currentUser ev).
Proof.
  intros Hm Hi.
  destruct ev; simpl;
    try (exfalso; eapply Hm; reflexivity);
    try (exfalso; eapply Hi; reflexivity);
    autounfold with handlers;
    unfold ChatWindow.sendMessage, ChatLayout.updateUserStatus;
    stepwise keeps_prim.
Qed.

Lemma step_WindowMount_messages enc dec currentUser r s e :
  forall m,
    In m (ChatWindow.messages
            (Client.window
               (state_of (Client.step enc dec currentUser
                            (Client.WindowMount r) s e)))) ->
    In m (ChatWindow.messages (Client.window s)) \/
    In m (delivered (Client.WindowMount r)).
Proof.
  simpl. unfold Client.with_window, Client.in_window, zoom, ChatWindow.mount,
    bind, get_state, state_of.
  destruct (ChatLayout.selectedProfile (Client.layout s)) as [p|];
    [|simpl; auto].
  destruct r as [d [x|]|x].
  - destruct (fetchMessages_failed currentUser p _ x (Client.window s) e
                (or_introl (ex_intro _ d eq_refl))) as (e' & -> & _).
    simpl. auto.
  - destruct (fetchMessages_loaded currentUser p d (Client.window s) e)
      as (e' & -> & _).
    simpl. destruct d as [data|]; simpl; auto.
  - destruct (fetchMessages_failed currentUser p _ x (Client.window s) e
                (or_intror eq_refl)) as (e' & -> & _).
    simpl. auto.
Qed.

Lemma step_MessageInsert_messages enc dec currentUser newMsg s e :
  forall m,
    In m (ChatWindow.messages
            (Client.window
               (state_of (Client.step enc dec currentUser
                            (Client.MessageInsert newMsg) s e)))) ->
    In m (ChatWindow.messages (Client.window s)) \/ In m [newMsg].
Proof.
  simpl. unfold Client.with_window, bind, get_state, state_of.
  destruct (ChatLayout.selectedProfile (Client.layout s)) as [p|];
    simpl; [|auto].
  unfold ChatWindow.append_unless_present.
  destruct (ChatWindow.find_by_id (Message.id newMsg)
              (ChatWindow.messages (Client.window s))); [auto|].
  intros m Hin. apply in_app_or in Hin. exact Hin.
Qed.

(** The render of the message list: it changes no state and issues no
    request.  It shows, for each message in state and in order, the text
    [decryptMessage] returns for its content, and it does so whenever every
    time stamp can be formatted; it throws only what formatting the time
    stamp of one of the messages throws. *)
Lemma render_messages_outcome dec currentUser fmt ms st e :
  exists r e',
    ChatWindow.render_messages dec currentUser fmt ms st e = (r, st, e') /\
    requests e' = requests e /\
    (forall shown,
        r = Normal shown ->
        List.map (fun b => snd (fst b)) shown =
        List.map (fun m => decrypted_text dec (Message.content m)) ms) /\
    (forall x,
        r = Throw x ->
        exists m, In m ms /\ fmt (Message.created_at m) = Throw x) /\
    ((forall m, In m ms -> exists t, fmt (Message.created_at m) = Normal t) ->
     exists shown, r = Normal shown).
Proof.
  revert e. induction ms as [|m ms IH]; intros e.
  - exists (Normal []), e. split; [reflexivity|]. split; [reflexivity|].
    split; [intros shown [= <-]; reflexivity|].
    split; [intros x Hx; discriminate Hx | eauto].
  - cbn [ChatWindow.render_messages].
    unfold ChatWindow.render_message; unfold bind.
    destruct (decryptMessage_text dec _ (Message.content m) st e)
      as (e1 & -> & _ & Hr1 & _).
    unfold lift.
    destruct (fmt (Message.created_at m)) as [t|x] eqn:Ef.
    + unfold ret at 1.
      destruct (IH e1) as (r & e2 & -> & Hr2 & Hshown & Hthrow & Hok).
      destruct r as [bs|x].
      * unfold ret. do 2 eexists. split; [reflexivity|].
        split; [congruence|].
        split.
        { intros shown [= <-]. simpl. f_equal. exact (Hshown bs eq_refl). }
        split; [intros x Hx; discriminate Hx | eauto].
      * do 2 eexists. split; [reflexivity|]. split; [congruence|].
        split; [intros shown Hs; discriminate Hs|].
        split.
        { intros y [= <-]. destruct (Hthrow x eq_refl) as (m' & Hin & Hm').
          exists m'. split; [right; exact Hin | exact Hm']. }
        intros Hall. destruct Hok as [shown Hs]; [|discriminate Hs].
        intros m' Hin. apply Hall. right. exact Hin.
    + do 2 eexists. split; [reflexivity|]. split; [exact Hr1|].
      split; [intros shown Hs; discriminate Hs|].
      split.
      { intros y [= <-]. exists m. split; [left; reflexivity | exact Ef]. }
      intros Hall. destruct (Hall m (or_introl eq_refl)) as [t Ht].
      congruence.
Qed.

Lemma step_message_writes enc dec currentUser ev s e :
  exists new,
    issued e (env_of (Client.step enc dec currentUser ev s e)) new /\
    Forall (message_write_ok enc currentUser) new.
Proof.
  destruct ev;
    match goal with
    | |- context [Client.step _ _ _ (Client.Tick _) _ _] =>
        exists []; unfold issued; simpl; rewrite app_nil_r; auto
    | |- context [Client.step _ _ _ ?ev _ _] =>
        destruct (step_issues_message_writes enc dec currentUser ev
                    ltac:(discriminate) s e) as (_ & new & Hi & Hf);
        exists new; split; assumption
    end.
Qed.

Lemma step_messages_from enc dec currentUser ev s e :
  forall m,
    In m (ChatWindow.messages
            (Client.window
               (state_of (Client.step enc dec currentUser ev s e)))) ->
    In m (ChatWindow.messages (Client.window s)) \/ In m (delivered ev).
Proof.
  destruct ev;
    match goal with
    | |- context [Client.step _ _ _ (Client.WindowMount _) _ _] =>
        apply step_WindowMount_messages
    | |- context [Client.step _ _ _ (Client.MessageInsert _) _ _] =>
        apply step_MessageInsert_messages
    | |- context [Client.step _ _ _ ?ev _ _] =>
        intros m Hin; left;
        rewrite <- (step_keeps_messages enc dec currentUser ev
                      ltac:(discriminate) ltac:(discriminate) s e);
        exact Hin
    end.
Qed.

Lemma run_cons enc dec currentUser ev evs s e :
  Client.run enc dec currentUser (ev :: evs) s e =
  Client.run enc dec currentUser evs
    (state_of (Client.step enc dec currentUser ev s e))
    (env_of (Client.step enc dec currentUser ev s e)).
Proof.
  simpl. unfold state_of, env_of.
  destruct (Client.step enc dec currentUser ev s e) as [[r s'] e'].
  reflexivity.
Qed.

Lemma run_message_writes enc dec currentUser evs :
  forall s e,
    exists new,
      issued e (snd (Client.run enc dec currentUser evs s e)) new /\
      Forall (message_write_ok enc currentUser) new.
Proof.
  induction evs as [|ev evs IH]; intros s e.
  - exists []. unfold issued. simpl. rewrite app_nil_r. auto.
  - rewrite run_cons.
    destruct (step_message_writes enc dec currentUser ev s e)
      as (n1 & H1 & F1).
    destruct (IH (state_of (Client.step enc dec currentUser ev s e))
                 (env_of (Client.step enc dec currentUser ev s e)))
      as (n2 & H2 & F2).
    exists (n1 ++ n2). unfold issued in *.
    rewrite H2, H1, app_assoc. split; [reflexivity|].
    apply Forall_app. auto.
Qed.

Lemma run_messages_from enc dec currentUser evs :
  forall s e m,
    In m (ChatWindow.messages
            (Client.window (fst (Client.run enc dec currentUser evs s e)))) ->
    In m (ChatWindow.messages (Client.window s)) \/
    exists ev, In ev evs /\ In m (delivered ev).
Proof.
  induction evs as [|ev evs IH]; intros s e m Hin.
  - left. exact Hin.
  - rewrite run_cons in Hin. apply IH in Hin.
    destruct Hin as [Hin | (ev' & Hev & Hd)].
    + apply step_messages_from in Hin.
      destruct Hin as [Hin | Hin]; [left; exact Hin|].
      right. exists ev. split; [left; reflexivity | exact Hin].
    + right. exists ev'. split; [right; exact Hev | exact Hd].
Qed.

(** C6: messages are written by insert only and never rewritten.  Along
    every run of the client, whatever the events: each request that writes
    to [direct_messages] is the insert of [sendMessage], carrying what
    [encryptMessage] returned for a trimmed input (there is no update,
    upsert or delete); each message in state at the end was there at the
    start or was delivered by the backend with one of the events, unchanged.
    And the render touches neither state nor backend: when it returns it
    shows [decryptMessage] of each content, which it does whenever every
    time stamp can be formatted, and it throws only what formatting a time
    stamp throws. *)
Theorem messages_are_insert_only
  (enc : N -> jsstring -> jsstring -> completion jsstring)
  (dec : jsstring -> jsstring -> completion jsstring)
  (currentUser : User.t) (evs : list Client.event)
  (s : Client.state) (e : Env) :
  let out := Client.run enc dec currentUser evs s e in
  (exists new,
      issued e (snd out) new /\
      Forall (message_write_ok enc currentUser) new) /\
  (forall m,
      In m (ChatWindow.messages (Client.window (fst out))) ->
      In m (ChatWindow.messages (Client.window s)) \/
      exists ev, In ev evs /\ In m (delivered ev)) /\
  (forall format_time st env,
      exists r env',
        ChatWindow.render dec currentUser format_time st env = (r, st, env') /\
        requests env' = requests env /\
        (forall shown,
            r = Normal shown ->
            List.map (fun b => snd (fst b)) shown =
            List.map (fun m => decrypted_text dec (Message.content m))
                     (ChatWindow.messages st)) /\
        (forall x,
            r = Throw x ->
            exists m, In m (ChatWindow.messages st) /\
                      format_time (Message.created_at m) = Throw x) /\
        ((forall m, In m (ChatWindow.messages st) ->
                    exists t, format_time (Message.created_at m) = Normal t) ->
         exists shown, r = Normal shown)).
Proof.
  intros out. subst out. split; [|split].
  - apply run_message_writes.
  - apply run_messages_from.
  - intros fmt st env. unfold ChatWindow.render, bind, get_state.
    apply render_messages_outcome.
Qed.

Lemma messages_are_insert_only_witness :
  exists new,
    issued StandIn.env0
      (snd (Client.run StandIn.encrypt StandIn.decrypt StandIn.alice
              [Client.InputChange (str " hi ") (Resolved None None);
               Client.KeyPress (str "Enter") false 5 (Resolved None None)
                               (Resolved None None);
               Client.MessageInsert
                 (StandIn.msg "m1" "alice" "bob" "c" "2024-05-01T10:00:00Z");
               Client.Render Sample.format_HHmm]
              StandIn.client0 StandIn.env0))
      new /\
    Forall (message_write_ok StandIn.encrypt StandIn.alice) new /\
    In (message_insert StandIn.alice StandIn.bob
          (encrypted_text StandIn.encrypt 5 (str "hi")))
       new.
Proof.
  destruct (proj1 (messages_are_insert_only StandIn.encrypt StandIn.decrypt
                     StandIn.alice
                     [Client.InputChange (str " hi ") (Resolved None None);
                      Client.KeyPress (str "Enter") false 5
                                      (Resolved None None)
                                      (Resolved None None);
                      Client.MessageInsert
                        (StandIn.msg "m1" "alice" "bob" "c"
                                     "2024-05-01T10:00:00Z");
                      Client.Render Sample.format_HHmm]
                     StandIn.client0 StandIn.env0))
    as (new & Hi & Hf).
  exists new. split; [exact Hi|]. split; [exact Hf|].
  unfold issued in Hi. simpl app in Hi. rewrite <- Hi.
  vm_compute. right. left. reflexivity.
Defined.

(** ** Profile status *)

Lemma updateUserStatus_request currentUser status r s e :
  exists e',
    ChatLayout.updateUserStatus currentUser status r s e = (Normal tt, s, e') /\
    issued e e' [status_update currentUser status (clock e)] /\
    clock e' = clock e.
Proof.
  unfold ChatLayout.updateUserStatus, status_update. run_handler.
  destruct r as [d err|x]; destruct e; eexists;
    (split; [reflexivity|]); split; reflexivity.
Qed.

Lemma updateUserStatus_issues currentUser status r :
  In status presence_values ->
  respects (only_issues (status_write_ok currentUser))
           (ChatLayout.updateUserStatus currentUser status r).
Proof.
  intros Hin s e.
  destruct (updateUserStatus_request currentUser status r s e)
    as (e' & -> & Hi & Hc).
  unfold only_issues, env_of; simpl. split; [exact Hc|].
  eexists. split; [exact Hi|].
  constructor; [|constructor].
  intros row _ _ _. exists status. auto.
Qed.

Ltac status_write_ok_tac :=
  intros; unfold status_write_ok; simpl;
  let Ht := fresh "Ht" in
  let Hr := fresh "Hr" in
  let Hf := fresh "Hf" in
  intros ? Ht Hr Hf;
  first [ discriminate Ht
        | injection Hr as <-; simpl in Hf; exfalso; apply Hf; reflexivity ].

Lemma step_issues_status_writes enc dec currentUser ev :
  (forall dt, ev <> Client.Tick dt) ->
  respects (only_issues (status_write_ok currentUser))
           (Client.step enc dec currentUser ev).
Proof.
  intros Hev.
  destruct ev; cbv beta iota delta [Client.step];
    try (exfalso; eapply Hev; reflexivity);
    autounfold with handlers; unfold ChatWindow.sendMessage;
    stepwise ltac:(first
      [ apply updateUserStatus_issues; simpl; tauto
      | apply fire_timer_issues; status_write_ok_tac
      | apply render_messages_issues
      | issues_prim status_write_ok_tac ]).
Qed.

Lemma step_status_writes enc dec currentUser ev s e :
  exists new,
    issued e (env_of (Client.step enc dec currentUser ev s e)) new /\
    Forall (status_write_ok currentUser (clock e)) new.
Proof.
  destruct ev;
    match goal with
    | |- context [Client.step _ _ _ (Client.Tick _) _ _] =>
        exists []; unfold issued; simpl; rewrite app_nil_r; auto
    | |- context [Client.step _ _ _ ?ev _ _] =>
        destruct (step_issues_status_writes enc dec currentUser ev
                    ltac:(discriminate) s e) as (_ & new & Hi & Hf);
        exists new; split; assumption
    end.
Qed.

Lemma run_status_writes enc dec currentUser evs :
  forall s e,
    exists new,
      issued e (snd (Client.run enc dec currentUser evs s e)) new /\
      Forall (fun op => exists t, status_write_ok currentUser t op) new.
Proof.
  induction evs as [|ev evs IH]; intros s e.
  - exists []. unfold issued. simpl. rewrite app_nil_r. auto.
  - rewrite run_cons.
    destruct (step_status_writes enc dec currentUser ev s e)
      as (n1 & H1 & F1).
    destruct (IH (state_of (Client.step enc dec currentUser ev s e))
                 (env_of (Client.step enc dec currentUser ev s e)))
      as (n2 & H2 & F2).
    exists (n1 ++ n2). unfold issued in *.
    rewrite H2, H1, app_assoc. split; [reflexivity|].
    apply Forall_app. split; [|exact F2].
    eapply Forall_impl; [|exact F1]. intros op Hop. eauto.
Qed.

(** C7: every request of the client that writes a profile's [status] is
    the update [updateUserStatus] makes, with one of the values online,
    away, offline and with [last_seen] set to the time of the call: online
    on mount and when the page becomes visible, away when it is hidden,
    offline on unload and on teardown.  This holds for each event, with the
    time of the event as time stamp, and so along every run. *)
Theorem status_writes_go_through_updateUserStatus
  (enc : N -> jsstring -> jsstring -> completion jsstring)
  (dec : jsstring -> jsstring -> completion jsstring)
  (currentUser : User.t) (s : Client.state) (e : Env) :
  (forall ev,
      exists new,
        issued e (env_of (Client.step enc dec currentUser ev s e)) new /\
        Forall (status_write_ok currentUser (clock e)) new) /\
  (forall evs,
      exists new,
        issued e (snd (Client.run enc dec currentUser evs s e)) new /\
        Forall (fun op => exists t, status_write_ok currentUser t op) new) /\
  (forall r,
      issued e (env_of (Client.step enc dec currentUser
                          (Client.LayoutMount r) s e))
             [status_update currentUser (str "online") (clock e);
              ChannelSubscribe (str "user-presence")]) /\
  (forall r,
      issued e (env_of (Client.step enc dec currentUser
                          (Client.VisibilityChange false r) s e))
             [status_update currentUser (str "online") (clock e)]) /\
  (forall r,
      issued e (env_of (Client.step enc dec currentUser
                          (Client.VisibilityChange true r) s e))
             [status_update currentUser (str "away") (clock e)]) /\
  (forall r,
      issued e (env_of (Client.step enc dec currentUser
                          (Client.BeforeUnload r) s e))
             [status_update currentUser (str "offline") (clock e)]) /\
  (forall r,
      issued e (env_of (Client.step enc dec currentUser
                          (Client.LayoutTeardown r) s e))
             [status_update currentUser (str "offline") (clock e);
              ChannelUnsubscribe (str "user-presence")]) /\
  (forall status t,
      field "status" [("status"%string, VStr status);
                      ("last_seen"%string, VTime t)] = Some (VStr status) /\
      field "last_seen" [("status"%string, VStr status);
                         ("last_seen"%string, VTime t)] = Some (VTime t) /\
      written_row (status_update currentUser status t) =
      Some [("status"%string, VStr status); ("last_seen"%string, VTime t)]).
Proof.
  split; [intros ev; apply step_status_writes|].
  split; [intros evs; apply run_status_writes|].
  assert (Hreq : forall status r,
             exists e',
               ChatLayout.updateUserStatus currentUser status r
                 (Client.layout s) e = (Normal tt, Client.layout s, e') /\
               requests e' =
               requests e ++ [status_update currentUser status (clock e)]).
  { intros status r.
    destruct (updateUserStatus_request currentUser status r
                (Client.layout s) e) as (e' & E & I & _).
    exists e'. split; assumption. }
  split; [|split; [|split; [|split; [|split]]]].
  - intros r. destruct (Hreq (str "online") r) as (e' & E & I).
    unfold issued, env_of. simpl.
    unfold Client.in_layout, zoom, ChatLayout.mount, bind.
    rewrite E. simpl. rewrite I, <- app_assoc. reflexivity.
  - intros r. destruct (Hreq (str "online") r) as (e' & E & I).
    unfold issued, env_of. simpl.
    unfold Client.in_layout, zoom, ChatLayout.handleVisibilityChange.
    rewrite E. exact I.
  - intros r. destruct (Hreq (str "away") r) as (e' & E & I).
    unfold issued, env_of. simpl.
    unfold Client.in_layout, zoom, ChatLayout.handleVisibilityChange.
    rewrite E. exact I.
  - intros r. destruct (Hreq (str "offline") r) as (e' & E & I).
    unfold issued, env_of. simpl.
    unfold Client.in_layout, zoom, ChatLayout.handleBeforeUnload.
    rewrite E. exact I.
  - intros r. destruct (Hreq (str "offline") r) as (e' & E & I).
    unfold issued, env_of. simpl.
    unfold Client.in_layout, zoom, ChatLayout.teardown, bind.
    rewrite E. simpl. rewrite I, <- app_assoc. reflexivity.
  - intros status t. split; [reflexivity|]. split; reflexivity.
Qed.

Lemma status_writes_go_through_updateUserStatus_witness :
  issued StandIn.env0
    (env_of (Client.step StandIn.encrypt StandIn.decrypt StandIn.alice
               (Client.VisibilityChange true (Resolved None None))
               StandIn.client0 StandIn.env0))
    [status_update StandIn.alice (str "away") 0].
Proof.
  destruct (status_writes_go_through_updateUserStatus StandIn.encrypt
              StandIn.decrypt StandIn.alice StandIn.client0 StandIn.env0)
    as (_ & _ & _ & _ & H & _).
  apply H.
Defined.

(* ================================================================== *)
(** * Further properties of the handlers *)
(* ================================================================== *)

(** ** Blank input *)

Lemma forallb_rev_eq (f : N -> bool) (l : jsstring) :
  forallb f (rev l) = forallb f l.
Proof.
  destruct (forallb f l) eqn:E.
  - apply forallb_forall. intros x Hx. apply in_rev in Hx.
    rewrite forallb_forall in E. auto.
  - destruct (forallb f (rev l)) eqn:E'; [|reflexivity].
    rewrite forallb_forall in E'.
    assert (H : forallb f l = true).
    { apply forallb_forall. intros x Hx. apply E'. apply in_rev.
      rewrite rev_involutive. exact Hx. }
    congruence.
Qed.

Lemma trimStart_nil_iff (s : jsstring) :
  trimStart s = [] <-> forallb is_white_space s = true.
Proof.
  induction s as [|u r IH]; simpl; [tauto|].
  destruct (is_white_space u); simpl; [exact IH|].
  split; discriminate.
Qed.

Lemma trimStart_idem (s : jsstring) : trimStart (trimStart s) = trimStart s.
Proof.
  induction s as [|u r IH]; simpl; [reflexivity|].
  destruct (is_white_space u) eqn:E; [exact IH|].
  simpl. rewrite E. reflexivity.
Qed.

Lemma trim_nil_iff (s : jsstring) :
  trim s = [] <-> forallb is_white_space s = true.
Proof.
  unfold trim, trimEnd.
  rewrite <- trimStart_nil_iff.
  split.
  - intros H. apply (f_equal (@rev N)) in H.
    rewrite rev_involutive in H. simpl in H.
    apply trimStart_nil_iff in H. rewrite forallb_rev_eq in H.
    apply trimStart_nil_iff in H. rewrite trimStart_idem in H. exact H.
  - intros ->. reflexivity.
Qed.

Lemma sendMessage_outcome enc currentUser p nm salt r st e :
  exists st' e',
    ChatWindow.sendMessage enc currentUser p nm salt r st e
    = (Normal tt, st', e') /\
    issued e e'
      (if truthy (trim nm)
       then [message_insert currentUser p (encrypted_text enc salt (trim nm))]
       else []) /\
    clock e' = clock e /\ timers e' = timers e.
Proof.
  destruct (truthy (trim nm)) eqn:T.
  - apply truthy_true in T.
    destruct r as [d [x|]|x].
    + destruct (sendMessage_refused enc currentUser p nm salt _ x st e T
                  (or_introl (ex_intro _ d eq_refl)))
        as (e' & E & Hi & _ & Ht & Hc). eauto 8.
    + destruct (sendMessage_accepted enc currentUser p nm salt d st e T)
        as (e' & E & Hi & _ & Ht & Hc). eauto 8.
    + destruct (sendMessage_refused enc currentUser p nm salt _ x st e T
                  (or_intror eq_refl))
        as (e' & E & Hi & _ & Ht & Hc). eauto 8.
  - apply truthy_false in T.
    rewrite (sendMessage_blank enc currentUser p nm salt r st e T).
    exists st, e. unfold issued. rewrite app_nil_r. auto.
Qed.

(** X2: [sendMessage] issues no request exactly when the input consists
    of white space only (the empty input included); any input with one
    other character is sent. *)
Theorem sendMessage_skips_exactly_white_space
  (enc : N -> jsstring -> jsstring -> completion jsstring)
  (currentUser : User.t) (p : Profile.t) (newMessage : jsstring) (salt : N)
  (r : reply unit) (st : ChatWindow.state) (e : Env) :
  requests (env_of (ChatWindow.sendMessage enc currentUser p newMessage salt
                      r st e)) = requests e
  <-> forallb is_white_space newMessage = true.
Proof.
  rewrite <- trim_nil_iff.
  destruct (sendMessage_outcome enc currentUser p newMessage salt r st e)
    as (st' & e' & -> & Hi & _).
  unfold env_of, issued in *. simpl.
  destruct (truthy (trim newMessage)) eqn:T.
  - apply truthy_true in T. split; [|contradiction].
    intros H. rewrite Hi in H.
    apply (f_equal (@List.length backend_op)) in H.
    rewrite length_app in H. simpl in H. lia.
  - apply truthy_false in T. rewrite app_nil_r in Hi. tauto.
Qed.

(** ** Writes whose outcome is not looked at *)

Lemma updateTypingStatus_request currentUser p typing r st e :
  exists e',
    ChatWindow.updateTypingStatus currentUser p typing r st e
    = (Normal tt, st, e') /\
    issued e e' [typing_upsert currentUser p typing] /\
    toasts e' = toasts e /\ timers e' = timers e /\ clock e' = clock e /\
    console e' =
    match r with
    | Resolved _ _ => console e
    | Rejected x =>
        console e ++ [ConsoleError "Error updating typing status:" x]
    end.
Proof.
  unfold ChatWindow.updateTypingStatus, typing_upsert. run_handler.
  destruct r as [d err|x]; destruct st, e; eexists;
    (split; [reflexivity|]); (split; [reflexivity|]); auto.
Qed.

Lemma updateUserStatus_outcome currentUser status r s e :
  exists e',
    ChatLayout.updateUserStatus currentUser status r s e = (Normal tt, s, e') /\
    issued e e' [status_update currentUser status (clock e)] /\
    toasts e' = toasts e /\ timers e' = timers e /\ clock e' = clock e /\
    console e' =
    match r with
    | Resolved _ _ => console e
    | Rejected x =>
        console e ++ [ConsoleError "Error updating user status:" x]
    end.
Proof.
  unfold ChatLayout.updateUserStatus, status_update. run_handler.
  destruct r as [d err|x]; destruct e; eexists;
    (split; [reflexivity|]); (split; [reflexivity|]); auto.
Qed.

(** X9: the status and typing writes are fire-and-forget.  Whatever the
    backend answers, [updateUserStatus] and [updateTypingStatus] return
    normally, leave the state alone and show no toast; an error reported
    in the answer is not even logged, only a rejected promise is. *)
Theorem status_and_typing_writes_fail_silently
  (currentUser : User.t) (p : Profile.t) (status : jsstring) (typing : bool)
  (r : reply unit) (ls : ChatLayout.state) (ws : ChatWindow.state) (e : Env) :
  let out1 := ChatLayout.updateUserStatus currentUser status r ls e in
  let out2 := ChatWindow.updateTypingStatus currentUser p typing r ws e in
  (result_of out1 = Normal tt /\ state_of out1 = ls /\
   toasts (env_of out1) = toasts e /\
   issued e (env_of out1) [status_update currentUser status (clock e)]) /\
  (result_of out2 = Normal tt /\ state_of out2 = ws /\
   toasts (env_of out2) = toasts e /\
   issued e (env_of out2) [typing_upsert currentUser p typing]) /\
  (forall d err, r = Resolved d err ->
                 console (env_of out1) = console e /\
                 console (env_of out2) = console e) /\
  (forall x, r = Rejected x ->
             console (env_of out1) =
             console e ++ [ConsoleError "Error updating user status:" x] /\
             console (env_of out2) =
             console e ++ [ConsoleError "Error updating typing status:" x]).
Proof.
  intros out1 out2. subst out1 out2.
  destruct (updateUserStatus_outcome currentUser status r ls e)
    as (e1 & -> & I1 & T1 & _ & _ & C1).
  destruct (updateTypingStatus_request currentUser p typing r ws e)
    as (e2 & -> & I2 & T2 & _ & _ & C2).
  unfold result_of, state_of, env_of; simpl.
  split; [auto|]. split; [auto|]. split.
  - intros d err ->. auto.
  - intros x ->. auto.
Qed.

Lemma status_and_typing_writes_fail_silently_witness :
  console
    (env_of (ChatLayout.updateUserStatus StandIn.alice (str "online")
               (Resolved None (Some "permission denied"%string))
               (ChatLayout.mkState None) StandIn.env0))
  = [] /\
  console
    (env_of (ChatWindow.updateTypingStatus StandIn.alice StandIn.bob true
               (Resolved None (Some "permission denied"%string))
               ChatWindow.initial StandIn.env0))
  = [].
Proof.
  destruct (status_and_typing_writes_fail_silently StandIn.alice StandIn.bob
              (str "online") true
              (Resolved None (Some "permission denied"%string))
              (ChatLayout.mkState None) ChatWindow.initial StandIn.env0)
    as (_ & _ & H & _).
  exact (H None (Some "permission denied"%string) eq_refl).
Defined.

(** ** The Enter key *)

(** X1: [handleKeyPress] acts on Enter without Shift only.  Any other key,
    and Shift+Enter, change nothing and issue nothing.  Plain Enter runs
    [sendMessage] and then withdraws the typing flag: the insert (absent
    when the input is blank) is followed by the upsert of
    [is_typing = false], and the handler returns normally whatever the
    backend answers. *)
Theorem handleKeyPress_acts_on_plain_enter
  (enc : N -> jsstring -> jsstring -> completion jsstring)
  (currentUser : User.t) (p : Profile.t) (newMessage key : jsstring)
  (shift : bool) (salt : N) (r_insert r_typing : reply unit)
  (st : ChatWindow.state) (e : Env) :
  let out := ChatWindow.handleKeyPress enc currentUser p newMessage key shift
               salt r_insert r_typing st e in
  (key <> str "Enter" \/ shift = true -> out = (Normal tt, st, e)) /\
  (key = str "Enter" -> shift = false ->
   result_of out = Normal tt /\
   issued e (env_of out)
     ((if truthy (trim newMessage)
       then [message_insert currentUser p
               (encrypted_text enc salt (trim newMessage))]
       else [])
      ++ [typing_upsert currentUser p false])).
Proof.
  intros out. subst out. unfold ChatWindow.handleKeyPress. split.
  - intros [Hk | ->].
    + apply eqb_neq in Hk. rewrite Hk. reflexivity.
    + rewrite andb_false_r. reflexivity.
  - intros -> ->. rewrite eqb_refl. cbn [andb negb].
    unfold bind.
    destruct (sendMessage_outcome enc currentUser p newMessage salt r_insert
                st e) as (st' & e' & -> & Hi & _).
    destruct (updateTypingStatus_request currentUser p false r_typing st' e')
      as (e'' & -> & Hi' & _).
    unfold result_of, env_of, issued in *; simpl.
    split; [reflexivity|]. rewrite Hi', Hi, app_assoc. reflexivity.
Qed.

Lemma handleKeyPress_acts_on_plain_enter_witness :
  ChatWindow.handleKeyPress StandIn.encrypt StandIn.alice StandIn.bob
    (str "hi") (str "Enter") true 5 (Resolved None None) (Resolved None None)
    (ChatWindow.mkState [] (str "hi") false false) StandIn.env0
  = (Normal tt, ChatWindow.mkState [] (str "hi") false false, StandIn.env0)
  /\
  issued StandIn.env0
    (env_of (ChatWindow.handleKeyPress StandIn.encrypt StandIn.alice
               StandIn.bob (str "hi") (str "Enter") false 5
               (Resolved None None) (Resolved None None)
               (ChatWindow.mkState [] (str "hi") false false) StandIn.env0))
    [message_insert StandIn.alice StandIn.bob
       (encrypted_text StandIn.encrypt 5 (str "hi"));
     typing_upsert StandIn.alice StandIn.bob false].
Proof.
  split.
  - apply (handleKeyPress_acts_on_plain_enter StandIn.encrypt StandIn.alice
             StandIn.bob (str "hi") (str "Enter") true 5 (Resolved None None)
             (Resolved None None)
             (ChatWindow.mkState [] (str "hi") false false) StandIn.env0).
    right. reflexivity.
  - apply (handleKeyPress_acts_on_plain_enter StandIn.encrypt StandIn.alice
             StandIn.bob (str "hi") (str "Enter") false 5 (Resolved None None)
             (Resolved None None)
             (ChatWindow.mkState [] (str "hi") false false) StandIn.env0);
      reflexivity.
Defined.

(** ** The typing time-out, continued *)

Lemma run_timer_clears currentUser p value r st e :
  exists e',
    ChatWindow.run_timer
      (TypingTimeout (User.id currentUser) (Profile.user_id p) value value)
      r st e = (Normal tt, st, e') /\
    issued e e' [typing_upsert currentUser p false] /\
    timers e' = timers e.
Proof.
  unfold ChatWindow.run_timer, typing_upsert. simpl.
  rewrite eqb_refl. run_handler.
  destruct r as [d err|x]; destruct st, e; eexists;
    (split; [reflexivity|]); split; reflexivity.
Qed.

(** X3: the time-out of [handleInputChange] waits for its 3 seconds and
    then compares.  With no other timer pending: before 3000 ms have
    passed the event loop has nothing to run and the timer stays queued;
    once they have passed, and the handler was called with a value equal
    to the [newMessage] its render saw, the callback upserts
    [is_typing = false] and the queue is empty. *)
Theorem typing_timeout_waits_then_compares
  (currentUser : User.t) (p : Profile.t) (newMessage value : jsstring)
  (r r' : reply unit) (dt : N) (st : ChatWindow.state) (e : Env) :
  timers e = [] ->
  let typed := ChatWindow.handleInputChange currentUser p newMessage value r
                 st e in
  let waited := advance dt (state_of typed) (env_of typed) in
  let fired := fire_timer r' (state_of waited) (env_of waited) in
  (dt < 3000 ->
   fired = (Normal tt, state_of waited, env_of waited) /\
   timers (env_of waited) =
   [(clock e + 3000,
     TypingTimeout (User.id currentUser) (Profile.user_id p) value
                   newMessage)]) /\
  (3000 <= dt -> value = newMessage ->
   issued e (env_of fired)
          [typing_upsert currentUser p (0 <? JS.length value);
           typing_upsert currentUser p false] /\
   timers (env_of fired) = []).
Proof.
  intros Hnone typed waited fired. subst typed waited fired.
  destruct (handleInputChange_effects currentUser p newMessage value r st e)
    as (e' & -> & Hi & Ht & Hc).
  unfold state_of, env_of, advance, fire_timer; simpl.
  rewrite Ht, Hnone, Hc. simpl. split.
  - intros Hdt.
    replace (clock e + 3000 <=? clock e + dt) with false
      by (symmetry; apply N.leb_gt; lia).
    split; reflexivity.
  - intros Hdt <-.
    replace (clock e + 3000 <=? clock e + dt) with true
      by (symmetry; apply N.leb_le; lia).
    destruct (run_timer_clears currentUser p value r'
                (ChatWindow.mkState (ChatWindow.messages st) value
                   (ChatWindow.loading st) (ChatWindow.isTyping st))
                (mkEnv (console e') (toasts e') (requests e') []
                       (clock e + dt)))
      as (e'' & -> & Hi' & Ht').
    unfold issued in *. simpl in *.
    rewrite Hi', Hi, <- app_assoc. split; [reflexivity | exact Ht'].
Qed.

Lemma typing_timeout_waits_then_compares_witness :
  fire_timer (Resolved None None)
    (state_of
       (advance 2999
          (state_of (ChatWindow.handleInputChange StandIn.alice StandIn.bob
                       [] (str "h") (Resolved None None) ChatWindow.initial
                       StandIn.env0))
          (env_of (ChatWindow.handleInputChange StandIn.alice StandIn.bob
                     [] (str "h") (Resolved None None) ChatWindow.initial
                     StandIn.env0))))
    (env_of
       (advance 2999
          (state_of (ChatWindow.handleInputChange StandIn.alice StandIn.bob
                       [] (str "h") (Resolved None None) ChatWindow.initial
                       StandIn.env0))
          (env_of (ChatWindow.handleInputChange StandIn.alice StandIn.bob
                     [] (str "h") (Resolved None None) ChatWindow.initial
                     StandIn.env0))))
  = (Normal tt,
     ChatWindow.mkState [] (str "h") false false,
     mkEnv [] [] [typing_upsert StandIn.alice StandIn.bob true]
           [(3000, TypingTimeout (str "alice") (str "bob") (str "h") [])]
           2999).
Proof.
  assert (Hdt : 2999 < 3000) by reflexivity.
  exact (proj1 (proj1 (typing_timeout_waits_then_compares StandIn.alice
                         StandIn.bob [] (str "h") (Resolved None None)
                         (Resolved None None) 2999 ChatWindow.initial
                         StandIn.env0 eq_refl) Hdt)).
Defined.

(** ** Forms and lists of the other components *)

Ltac run_form :=
  cbv [bind ret throw lift try_catch try_finally get_state modify now
       console_log console_error show_toast await send
       ChatSidebar.setProfiles ChatSidebar.setLoading
       SettingsModal.setLoading AuthForm.setLoading
       result_of state_of env_of issued fst snd
       requests toasts console timers clock].

Lemma reply_cases D (r : reply D) :
  (exists d, r = Resolved d None) \/ (exists x, fails r x).
Proof.
  unfold fails. destruct r as [d [x|]|x]; eauto 6.
Qed.

Lemma fails_not_ok D (r : reply D) x d : fails r x -> r <> Resolved d None.
Proof. intros [[d' ->] | ->]; discriminate. Qed.

Lemma fetchProfiles_loaded currentUser data st e :
  exists e',
    ChatSidebar.fetchProfiles currentUser (Resolved data None) st e =
    (Normal tt,
     ChatSidebar.mkState (ChatWindow.or_empty data)
                         (ChatSidebar.searchTerm st) false,
     e') /\
    issued e e' [profiles_query currentUser] /\
    toasts e' = toasts e.
Proof.
  unfold ChatSidebar.fetchProfiles, profiles_query. run_form.
  destruct st, e. eexists. split; [reflexivity|]. split; reflexivity.
Qed.

Lemma fetchProfiles_failed currentUser r x st e :
  fails r x ->
  exists e',
    ChatSidebar.fetchProfiles currentUser r st e =
    (Normal tt,
     ChatSidebar.mkState (ChatSidebar.profiles_ st)
                         (ChatSidebar.searchTerm st) false,
     e') /\
    issued e e' [profiles_query currentUser] /\
    toasts e' = toasts e ++ [destructive "Failed to load contacts"].
Proof.
  unfold ChatSidebar.fetchProfiles, profiles_query.
  intros [[d ->] | ->]; run_form; destruct st, e; eexists;
    (split; [reflexivity|]); split; reflexivity.
Qed.

(** X4: [fetchProfiles] asks for all profiles but the user's own, most
    recently seen first, and always leaves the loading state: whatever the
    answer it returns normally with [loading = false] and the search term
    untouched.  On success the list becomes the rows returned (empty for
    [null]); on failure the list is kept and the error toast is shown. *)
Theorem fetchProfiles_always_stops_loading
  (currentUser : User.t) (r : reply (list Profile.t))
  (st : ChatSidebar.state) (e : Env) :
  let out := ChatSidebar.fetchProfiles currentUser r st e in
  result_of out = Normal tt /\
  issued e (env_of out)
         [Select profiles (FNeq "user_id" (User.id currentUser))
                 "last_seen" false] /\
  ChatSidebar.loading (state_of out) = false /\
  ChatSidebar.searchTerm (state_of out) = ChatSidebar.searchTerm st /\
  (forall data,
      r = Resolved data None ->
      ChatSidebar.profiles_ (state_of out) = ChatWindow.or_empty data /\
      toasts (env_of out) = toasts e) /\
  (forall x,
      fails r x ->
      ChatSidebar.profiles_ (state_of out) = ChatSidebar.profiles_ st /\
      toasts (env_of out) =
      toasts e ++ [destructive "Failed to load contacts"]).
Proof.
  intros out. subst out.
  destruct (reply_cases _ r) as [[d ->] | [x Hx]].
  - destruct (fetchProfiles_loaded currentUser d st e) as (e' & -> & Hi & Ht).
    unfold result_of, state_of, env_of; simpl.
    split; [reflexivity|]. split; [exact Hi|]. split; [reflexivity|].
    split; [reflexivity|]. split.
    + intros data [= <-]. split; [reflexivity | exact Ht].
    + intros y Hy. exfalso. exact (fails_not_ok _ _ y d Hy eq_refl).
  - destruct (fetchProfiles_failed currentUser r x st e Hx)
      as (e' & -> & Hi & Ht).
    unfold result_of, state_of, env_of; simpl.
    split; [reflexivity|]. split; [exact Hi|]. split; [reflexivity|].
    split; [reflexivity|]. split.
    + intros data E. exfalso. exact (fails_not_ok _ _ x data Hx E).
    + intros _ _. split; [reflexivity | exact Ht].
Qed.

Lemma fetchProfiles_always_stops_loading_witness :
  ChatSidebar.profiles_
    (state_of (ChatSidebar.fetchProfiles StandIn.alice
                 (Rejected "network"%string)
                 (ChatSidebar.mkState [StandIn.bob] [] true) StandIn.env0))
  = [StandIn.bob] /\
  toasts
    (env_of (ChatSidebar.fetchProfiles StandIn.alice
               (Rejected "network"%string)
               (ChatSidebar.mkState [StandIn.bob] [] true) StandIn.env0))
  = [destructive "Failed to load contacts"].
Proof.
  destruct (fetchProfiles_always_stops_loading StandIn.alice
              (Rejected "network"%string)
              (ChatSidebar.mkState [StandIn.bob] [] true) StandIn.env0)
    as (_ & _ & _ & _ & _ & H).
  apply (H "network"%string). right. reflexivity.
Defined.

(** X7: [handleSaveProfile] stops at the first failure and does not undo
    what went before.  It always returns normally with [loading = false]
    and the form fields untouched, and shows exactly one toast.  If the
    profile update fails, the account metadata is not touched; if the
    profile update succeeds and the metadata update fails, both requests
    have been made and the error toast is shown; the success toast appears
    only when both succeed. *)
Theorem handleSaveProfile_stops_at_first_failure
  (currentUser : User.t) (displayName bio : jsstring)
  (r_profile r_auth : reply unit) (st : SettingsModal.state) (e : Env) :
  let out := SettingsModal.handleSaveProfile currentUser displayName bio
               r_profile r_auth st e in
  let update := profile_update currentUser displayName bio in
  let metadata := AuthUpdateUser [("display_name"%string, VStr displayName)] in
  result_of out = Normal tt /\
  state_of out =
  SettingsModal.mkState (SettingsModal.displayName st) (SettingsModal.bio st)
    (SettingsModal.notifications st) (SettingsModal.onlineStatus st)
    (SettingsModal.theme st) false /\
  (forall x,
      fails r_profile x ->
      issued e (env_of out) [update] /\
      toasts (env_of out) =
      toasts e ++ [destructive "Failed to update profile"]) /\
  (forall d x,
      r_profile = Resolved d None -> fails r_auth x ->
      issued e (env_of out) [update; metadata] /\
      toasts (env_of out) =
      toasts e ++ [destructive "Failed to update profile"]) /\
  (forall d d',
      r_profile = Resolved d None -> r_auth = Resolved d' None ->
      issued e (env_of out) [update; metadata] /\
      exists t, toasts (env_of out) = toasts e ++ [t] /\ variant t = None).
Proof.
  intros out update metadata. subst out update metadata.
  unfold SettingsModal.handleSaveProfile, profile_update.
  destruct (reply_cases _ r_profile) as [[d ->] | [x Hx]].
  - destruct (reply_cases _ r_auth) as [[d' ->] | [y Hy]].
    + run_form. destruct st, e. simpl.
      split; [reflexivity|]. split; [reflexivity|]. split.
      { intros x Hx. exfalso. exact (fails_not_ok _ _ x d Hx eq_refl). }
      split.
      { intros d0 x _ Hx. exfalso.
        exact (fails_not_ok _ _ x d' Hx eq_refl). }
      intros ? ? _ _. rewrite <- app_assoc. split; [reflexivity|].
      eexists. split; reflexivity.
    + destruct Hy as [[d' ->] | ->]; run_form; destruct st, e; simpl;
        (split; [reflexivity|]); (split; [reflexivity|]);
        (split;
         [intros x Hx; exfalso; exact (fails_not_ok _ _ x d Hx eq_refl)|]);
        (split;
         [intros ? ? _ _; rewrite <- app_assoc; split; reflexivity|]);
        intros ? d0 ? E; discriminate E.
  - destruct Hx as [[d ->] | ->]; run_form; destruct st, e; simpl;
      (split; [reflexivity|]); (split; [reflexivity|]);
      (split; [intros ? _; split; reflexivity|]);
      (split; [intros d0 ? E; discriminate E|]);
      intros d0 ? E; discriminate E.
Qed.

Lemma handleSaveProfile_stops_at_first_failure_witness :
  issued StandIn.env0
    (env_of (SettingsModal.handleSaveProfile StandIn.alice (str "Alice") []
               (Resolved None (Some "denied"%string)) (Resolved None None)
               (Client.settings StandIn.client0) StandIn.env0))
    [profile_update StandIn.alice (str "Alice") []].
Proof.
  destruct (handleSaveProfile_stops_at_first_failure StandIn.alice
              (str "Alice") [] (Resolved None (Some "denied"%string))
              (Resolved None None) (Client.settings StandIn.client0)
              StandIn.env0) as (_ & _ & H & _).
  apply (H "denied"%string). left. exists None. reflexivity.
Defined.

(** X8: the sign-up and sign-in handlers make one request and report
    once.  Whatever the answer they return normally, reset [loading], keep
    the form fields (the password included) and show exactly one toast:
    the backend's own error message when the answer carries an error, a
    generic message when the call itself fails, and a welcome otherwise. *)
Theorem auth_handlers_report_once
  (f : AuthForm.state) (r : reply unit) (st : AuthForm.state) (e : Env) :
  let up := AuthForm.handleSignUp f r st e in
  let inn := AuthForm.handleSignIn f r st e in
  let kept := AuthForm.mkState (AuthForm.email st) (AuthForm.password st)
                (AuthForm.username st) (AuthForm.displayName st) false in
  (result_of up = Normal tt /\ state_of up = kept /\
   issued e (env_of up)
     [AuthSignUp (AuthForm.email f) (AuthForm.password f)
        [("username"%string, VStr (AuthForm.username f));
         ("display_name"%string, VStr (AuthForm.displayName f))]] /\
   exists t,
     toasts (env_of up) = toasts e ++ [t] /\
     (forall d x, r = Resolved d (Some x) -> t = destructive x) /\
     (forall x, r = Rejected x ->
                t = destructive "An unexpected error occurred") /\
     (forall d, r = Resolved d None -> variant t = None)) /\
  (result_of inn = Normal tt /\ state_of inn = kept /\
   issued e (env_of inn)
     [AuthSignIn (AuthForm.email f) (AuthForm.password f)] /\
   exists t,
     toasts (env_of inn) = toasts e ++ [t] /\
     (forall d x, r = Resolved d (Some x) -> t = destructive x) /\
     (forall x, r = Rejected x ->
                t = destructive "An unexpected error occurred") /\
     (forall d, r = Resolved d None -> variant t = None)).
Proof.
  intros up inn kept. subst up inn kept.
  unfold AuthForm.handleSignUp, AuthForm.handleSignIn.
  destruct r as [d [x|]|x]; destruct st, e; run_form; simpl;
    (split;
     [ split; [reflexivity|]; split; [reflexivity|]; split; [reflexivity|]
     | split; [reflexivity|]; split; [reflexivity|]; split; [reflexivity|] ]);
    eexists; (split; [reflexivity|]);
    (split; [intros ? ? E; inversion E; reflexivity|]);
    (split; [intros ? E; inversion E; reflexivity|]);
    intros ? E; inversion E; reflexivity.
Qed.

Lemma auth_handlers_report_once_witness :
  toasts
    (env_of (AuthForm.handleSignIn
               (AuthForm.mkState (str "a@b.c") (str "pw") [] [] false)
               (Resolved None (Some "Invalid login credentials"%string))
               (AuthForm.mkState (str "a@b.c") (str "pw") [] [] false)
               StandIn.env0))
  = [destructive "Invalid login credentials"].
Proof.
  destruct (auth_handlers_report_once
              (AuthForm.mkState (str "a@b.c") (str "pw") [] [] false)
              (Resolved None (Some "Invalid login credentials"%string))
              (AuthForm.mkState (str "a@b.c") (str "pw") [] [] false)
              StandIn.env0) as (_ & _ & _ & _ & t & Ht & Herr & _).
  rewrite Ht. rewrite (Herr None _ eq_refl). reflexivity.
Defined.

(** ** What the events leave alone *)

Ltac keeps_window proj :=
  first
    [ apply keeps_await | apply keeps_send | apply keeps_advance
    | apply keeps_modify; intros []; reflexivity
    | apply fire_timer_keeps | apply render_messages_keeps
    | apply (respects_zoom _ _ _ (keeps proj));
      [ intros ? ? ? ? Hk; exact Hk | ]
    | apply (respects_zoom _ _ _ (fun _ _ _ _ => True));
      [ intros; reflexivity | intros ? ?; exact I ] ].

Lemma run_keeps enc dec currentUser X (proj : Client.state -> X)
      (quiet : Client.event -> bool) :
  (forall ev, quiet ev = true ->
              respects (keeps proj) (Client.step enc dec currentUser ev)) ->
  forall evs s e,
    forallb quiet evs = true ->
    proj (fst (Client.run enc dec currentUser evs s e)) = proj s.
Proof.
  intros Hstep evs. induction evs as [|ev evs IH]; intros s e Hq;
    [reflexivity|].
  simpl in Hq. apply andb_true_iff in Hq. destruct Hq as [Hev Hq].
  rewrite run_cons, IH by exact Hq.
  exact (Hstep ev Hev s e).
Qed.

Lemma step_keeps_indicator enc dec currentUser ev :
  sets_indicator ev = false ->
  respects (keeps (fun s => ChatWindow.isTyping (Client.window s)))
           (Client.step enc dec currentUser ev).
Proof.
  intros Hev.
  destruct ev; try discriminate Hev;
    try match goal with
        | p : option jsflag |- _ => destruct p; [discriminate Hev|]
        end;
    cbv beta iota delta [Client.step];
    autounfold with handlers;
    unfold ChatWindow.sendMessage, ChatLayout.updateUserStatus;
    stepwise ltac:(keeps_window ChatWindow.isTyping).
Qed.

Lemma step_keeps_draft enc dec currentUser ev :
  edits_draft ev = false ->
  respects (keeps (fun s => ChatWindow.newMessage (Client.window s)))
           (Client.step enc dec currentUser ev).
Proof.
  intros Hev.
  destruct ev; try discriminate Hev;
    cbv beta iota delta [Client.step];
    autounfold with handlers;
    unfold ChatLayout.updateUserStatus;
    stepwise ltac:(keeps_window ChatWindow.newMessage).
Qed.

(** X11: the typing indicator follows the peer's typing notifications and
    nothing else moves it.  A notification whose [payload.new] is an object
    sets [isTyping] to what its [is_typing] reads as: the row's boolean, or
    [undefined] for the empty object of a DELETE, which is falsy and hides
    the indicator.  Along any run without such a notification (own typing,
    sending, incoming messages, timers, re-fetches, a [payload.new] that is
    [null]) [isTyping] stays as it was. *)
Theorem typing_indicator_follows_notifications
  (enc : N -> jsstring -> jsstring -> completion jsstring)
  (dec : jsstring -> jsstring -> completion jsstring)
  (currentUser : User.t) (s : Client.state) (e : Env) :
  (forall f p,
      ChatLayout.selectedProfile (Client.layout s) = Some p ->
      ChatWindow.isTyping
        (Client.window
           (state_of (Client.step enc dec currentUser
                        (Client.TypingChange (Some f)) s e))) = f /\
      indicator_shown
        (Client.window
           (state_of (Client.step enc dec currentUser
                        (Client.TypingChange (Some f)) s e)))
      = match f with Flag b => b | Undefined => false end) /\
  (forall evs,
      forallb (fun ev => negb (sets_indicator ev)) evs = true ->
      ChatWindow.isTyping
        (Client.window (fst (Client.run enc dec currentUser evs s e)))
      = ChatWindow.isTyping (Client.window s)).
Proof.
  split.
  - intros f p Hp. simpl.
    unfold Client.with_window, bind, get_state, state_of, indicator_shown.
    rewrite Hp. simpl. split; [reflexivity|].
    destruct f as [[|]|]; reflexivity.
  - intros evs Hq.
    apply (run_keeps enc dec currentUser _
             (fun s => ChatWindow.isTyping (Client.window s))
             (fun ev => negb (sets_indicator ev))); [|exact Hq].
    intros ev Hev. apply step_keeps_indicator.
    destruct (sets_indicator ev); [discriminate Hev | reflexivity].
Qed.

Lemma typing_indicator_follows_notifications_witness :
  ChatWindow.isTyping
    (Client.window
       (state_of
          (Client.step StandIn.encrypt StandIn.decrypt StandIn.alice
             (Client.TypingChange (Some Undefined))
             (Client.mkState (ChatLayout.mkState (Some StandIn.bob))
                (ChatWindow.mkState [] [] false (Flag true))
                (Client.sidebar StandIn.client0)
                (Client.settings StandIn.client0)
                (Client.auth StandIn.client0))
             StandIn.env0)))
  = Undefined /\
  ChatWindow.isTyping
    (Client.window
       (fst (Client.run StandIn.encrypt StandIn.decrypt StandIn.alice
               [Client.InputChange (str "h") (Resolved None None);
                Client.KeyPress (str "Enter") false 5 (Resolved None None)
                                (Resolved None None);
                Client.Tick 3000;
                Client.TimerFire (Resolved None None)]
               (Client.mkState (ChatLayout.mkState (Some StandIn.bob))
                  (ChatWindow.mkState [] [] false (Flag true))
                  (Client.sidebar StandIn.client0)
                  (Client.settings StandIn.client0)
                  (Client.auth StandIn.client0))
               StandIn.env0)))
  = Flag true.
Proof.
  destruct (typing_indicator_follows_notifications StandIn.encrypt
              StandIn.decrypt StandIn.alice
              (Client.mkState (ChatLayout.mkState (Some StandIn.bob))
                 (ChatWindow.mkState [] [] false (Flag true))
                 (Client.sidebar StandIn.client0)
                 (Client.settings StandIn.client0)
                 (Client.auth StandIn.client0))
              StandIn.env0) as (Hset & Hkeep).
  split.
  - exact (proj1 (Hset Undefined StandIn.bob eq_refl)).
  - exact (Hkeep [Client.InputChange (str "h") (Resolved None None);
                  Client.KeyPress (str "Enter") false 5 (Resolved None None)
                                  (Resolved None None);
                  Client.Tick 3000;
                  Client.TimerFire (Resolved None None)]
                 eq_refl).
Defined.

(** X12: the draft in the input field is the user's.  Along any run
    without input changes, clicks on send and key presses, [newMessage]
    stays as it was: incoming messages, typing notifications, re-fetches,
    timers, presence and the other components never overwrite it. *)
Theorem draft_is_left_to_the_user
  (enc : N -> jsstring -> jsstring -> completion jsstring)
  (dec : jsstring -> jsstring -> completion jsstring)
  (currentUser : User.t) (evs : list Client.event)
  (s : Client.state) (e : Env) :
  forallb (fun ev => negb (edits_draft ev)) evs = true ->
  ChatWindow.newMessage
    (Client.window (fst (Client.run enc dec currentUser evs s e)))
  = ChatWindow.newMessage (Client.window s).
Proof.
  intros Hq.
  apply (run_keeps enc dec currentUser _
           (fun s => ChatWindow.newMessage (Client.window s))
           (fun ev => negb (edits_draft ev))); [|exact Hq].
  intros ev Hev. apply step_keeps_draft.
  destruct (edits_draft ev); [discriminate Hev | reflexivity].
Qed.

Lemma draft_is_left_to_the_user_witness :
  ChatWindow.newMessage
    (Client.window
       (fst (Client.run StandIn.encrypt StandIn.decrypt StandIn.alice
               [Client.MessageInsert
                  (StandIn.msg "m1" "bob" "alice" "x" "2024-05-01T10:00:00Z");
                Client.TypingChange (Some (Flag true));
                Client.WindowMount (Rejected "network"%string);
                Client.TimerFire (Resolved None None)]
               (Client.mkState (ChatLayout.mkState (Some StandIn.bob))
                  (ChatWindow.mkState [] (str "draft") false false)
                  (Client.sidebar StandIn.client0)
                  (Client.settings StandIn.client0)
                  (Client.auth StandIn.client0))
               StandIn.env0)))
  = str "draft".
Proof.
  exact (draft_is_left_to_the_user StandIn.encrypt StandIn.decrypt
           StandIn.alice
           [Client.MessageInsert
              (StandIn.msg "m1" "bob" "alice" "x" "2024-05-01T10:00:00Z");
            Client.TypingChange (Some (Flag true));
            Client.WindowMount (Rejected "network"%string);
            Client.TimerFire (Resolved None None)]
           (Client.mkState (ChatLayout.mkState (Some StandIn.bob))
              (ChatWindow.mkState [] (str "draft") false false)
              (Client.sidebar StandIn.client0)
              (Client.settings StandIn.client0)
              (Client.auth StandIn.client0))
           StandIn.env0 eq_refl).
Defined.

(** ** Exceptions *)

Section Returns.

Context {St : Type}.

Lemma returns_ret A (a : A) : returns (@ret St A a).
Proof. intros s e. exists a. reflexivity. Qed.

Lemma returns_get_state : returns (@get_state St).
Proof. intros s e. exists s. reflexivity. Qed.

Lemma returns_now : returns (@now St).
Proof. intros s e. exists (clock e). reflexivity. Qed.

Lemma returns_modify f : returns (@modify St f).
Proof. intros s e. exists tt. reflexivity. Qed.

Lemma returns_console_log label : returns (@console_log St label).
Proof. intros s e. exists tt. reflexivity. Qed.

Lemma returns_console_error label x : returns (@console_error St label x).
Proof. intros s e. exists tt. reflexivity. Qed.

Lemma returns_show_toast t : returns (@show_toast St t).
Proof. intros s e. exists tt. reflexivity. Qed.

Lemma returns_send op : returns (@send St op).
Proof. intros s e. exists tt. reflexivity. Qed.

Lemma returns_setTimeout cb delay : returns (@setTimeout St cb delay).
Proof. intros s e. exists tt. reflexivity. Qed.

Lemma returns_advance dt : returns (@advance St dt).
Proof. intros s e. exists tt. reflexivity. Qed.

Lemma returns_bind A B (m : M St A) (k : A -> M St B) :
  returns m -> (forall a, returns (k a)) -> returns (bind m k).
Proof.
  intros Hm Hk s e. destruct (Hm s e) as [a Ha].
  unfold bind, result_of in *.
  destruct (m s e) as [[r s'] e']. simpl in Ha. subst r.
  apply Hk.
Qed.

(** The body of a [try] may throw; what matters is the handler. *)
Lemma returns_try_catch A (body : M St A) handler :
  (forall x, returns (handler x)) -> returns (try_catch body handler).
Proof.
  intros Hk s e. unfold try_catch, result_of.
  destruct (body s e) as [[[a|x] s'] e']; [exists a; reflexivity|].
  apply Hk.
Qed.

Lemma returns_try_finally A (body : M St A) fin :
  returns body -> returns fin -> returns (try_finally body fin).
Proof.
  intros Hm Hf s e. destruct (Hm s e) as [a Ha].
  unfold try_finally, result_of in *.
  destruct (body s e) as [[r s'] e']. simpl in Ha. subst r.
  destruct (Hf s' e') as [u Hu]. unfold result_of in Hu.
  destruct (fin s' e') as [[r' s''] e'']. simpl in Hu. subst r'.
  exists a. reflexivity.
Qed.

End Returns.

Lemma returns_zoom S T A (get : S -> T) (set : T -> S -> S) (m : M T A) :
  returns m -> returns (zoom get set m).
Proof.
  intros Hm s e. destruct (Hm (get s) e) as [a Ha].
  unfold zoom, result_of in *.
  destruct (m (get s) e) as [[r t'] e']. simpl in Ha. subst r.
  exists a. reflexivity.
Qed.

Ltac returns_tac extra :=
  repeat first
    [ progress intros
    | extra
    | apply returns_ret | apply returns_get_state | apply returns_now
    | apply returns_modify | apply returns_console_log
    | apply returns_console_error | apply returns_show_toast
    | apply returns_send | apply returns_setTimeout | apply returns_advance
    | apply returns_zoom
    | apply returns_try_catch | apply returns_try_finally
    | apply returns_bind
    | match goal with
      | |- returns (match ?x with _ => _ end) => destruct x
      end ].

Lemma fire_timer_returns r : returns (fire_timer r).
Proof.
  intros s e. unfold fire_timer.
  destruct (take_due (clock e) (timers e)) as [[cb rest]|].
  - assert (H : returns (ChatWindow.run_timer cb r)).
    { autounfold with handlers. returns_tac fail. }
    apply H.
  - exists tt. reflexivity.
Qed.

Lemma step_returns enc dec currentUser ev :
  may_throw ev = false ->
  returns (Client.step enc dec currentUser ev).
Proof.
  intros Hev.
  destruct ev; try discriminate Hev;
    cbv beta iota delta [Client.step];
    autounfold with handlers;
    unfold ChatWindow.sendMessage, ChatLayout.updateUserStatus;
    returns_tac ltac:(apply fire_timer_returns).
Qed.

Lemma step_Render_outcome enc dec currentUser fmt s e :
  (forall x,
      result_of (Client.step enc dec currentUser (Client.Render fmt) s e)
      = Throw x ->
      exists m, In m (ChatWindow.messages (Client.window s)) /\
                fmt (Message.created_at m) = Throw x) /\
  ((forall m, In m (ChatWindow.messages (Client.window s)) ->
              exists t, fmt (Message.created_at m) = Normal t) ->
   result_of (Client.step enc dec currentUser (Client.Render fmt) s e)
   = Normal tt).
Proof.
  cbv beta iota delta [Client.step].
  unfold Client.with_window, Client.in_window, zoom, ChatWindow.render,
    bind, get_state.
  destruct (ChatLayout.selectedProfile (Client.layout s)) as [p|];
    [|split; [intros x Hx; discriminate Hx | reflexivity]].
  destruct (render_messages_outcome dec currentUser fmt
              (ChatWindow.messages (Client.window s)) (Client.window s) e)
    as (r & e' & -> & _ & _ & Hthrow & Hok).
  unfold result_of; simpl. split.
  - intros x Hx. destruct r as [shown|y]; [discriminate Hx|].
    injection Hx as ->. exact (Hthrow x eq_refl).
  - intros Hall. destruct (Hok Hall) as [shown ->]. reflexivity.
Qed.

(** X15: where exceptions can escape.  Whatever the backend answers and
    the cipher does, every handler, subscription callback, effect and
    timer callback returns normally, except the three that await outside
    any [try]: the two sign-out handlers throw exactly when [signOut] is
    rejected, and the presence [subscribe] callback throws exactly when it
    is called with SUBSCRIBED and [track] is rejected.  The render of the
    message list returns normally when every time stamp can be formatted,
    and throws only what formatting one of them throws. *)
Theorem exceptions_escape_only_unguarded_awaits
  (enc : N -> jsstring -> jsstring -> completion jsstring)
  (dec : jsstring -> jsstring -> completion jsstring)
  (currentUser : User.t) (s : Client.state) (e : Env) :
  (forall ev,
      may_throw ev = false ->
      result_of (Client.step enc dec currentUser ev s e) = Normal tt) /\
  (forall r,
      result_of (Client.step enc dec currentUser (Client.SidebarSignOut r) s e)
      = match r with Rejected x => Throw x | Resolved _ _ => Normal tt end /\
      result_of (Client.step enc dec currentUser (Client.SettingsSignOut r) s e)
      = match r with Rejected x => Throw x | Resolved _ _ => Normal tt end) /\
  (forall status r,
      result_of (Client.step enc dec currentUser
                   (Client.SubscribeStatus status r) s e)
      = if eqb status (str "SUBSCRIBED")
        then match r with
             | Rejected x => Throw x
             | Resolved _ _ => Normal tt
             end
        else Normal tt) /\
  (forall format_time,
      (forall x,
          result_of (Client.step enc dec currentUser
                       (Client.Render format_time) s e) = Throw x ->
          exists m, In m (ChatWindow.messages (Client.window s)) /\
                    format_time (Message.created_at m) = Throw x) /\
      ((forall m, In m (ChatWindow.messages (Client.window s)) ->
                  exists t, format_time (Message.created_at m) = Normal t) ->
       result_of (Client.step enc dec currentUser
                    (Client.Render format_time) s e) = Normal tt)).
Proof.
  split; [|split; [|split]].
  - intros ev Hev.
    destruct (step_returns enc dec currentUser ev Hev s e) as [[] H].
    exact H.
  - intros r. destruct r as [d err|x]; split; reflexivity.
  - intros status r. simpl.
    unfold Client.in_layout, zoom, ChatLayout.on_subscribe_status.
    destruct (eqb status (str "SUBSCRIBED")); [|reflexivity].
    destruct r as [d err|x]; reflexivity.
  - intros fmt. apply step_Render_outcome.
Qed.

Lemma exceptions_escape_only_unguarded_awaits_witness :
  result_of
    (Client.step StandIn.encrypt StandIn.decrypt StandIn.alice
       (Client.SendClick 5 (Rejected "network"%string))
       (Client.mkState (ChatLayout.mkState (Some StandIn.bob))
          (ChatWindow.mkState [] [0xD83D] false false)
          (Client.sidebar StandIn.client0)
          (Client.settings StandIn.client0)
          (Client.auth StandIn.client0))
       StandIn.env0)
  = Normal tt /\
  result_of
    (Client.step StandIn.encrypt StandIn.decrypt StandIn.alice
       (Client.Render Sample.format_HHmm)
       (Client.mkState (ChatLayout.mkState (Some StandIn.bob))
          (ChatWindow.mkState
             [StandIn.msg "m1" "bob" "alice" "x" "2024-05-01T10:00:00Z"]
             [] false false)
          (Client.sidebar StandIn.client0)
          (Client.settings StandIn.client0)
          (Client.auth StandIn.client0))
       StandIn.env0)
  = Normal tt.
Proof.
  split.
  - exact (proj1 (exceptions_escape_only_unguarded_awaits StandIn.encrypt
                    StandIn.decrypt StandIn.alice
                    (Client.mkState (ChatLayout.mkState (Some StandIn.bob))
                       (ChatWindow.mkState [] [0xD83D] false false)
                       (Client.sidebar StandIn.client0)
                       (Client.settings StandIn.client0)
                       (Client.auth StandIn.client0))
                    StandIn.env0)
                 (Client.SendClick 5 (Rejected "network"%string)) eq_refl).
  - refine (proj2 (proj2 (proj2 (proj2
              (exceptions_escape_only_unguarded_awaits StandIn.encrypt
                 StandIn.decrypt StandIn.alice
                 (Client.mkState (ChatLayout.mkState (Some StandIn.bob))
                    (ChatWindow.mkState
                       [StandIn.msg "m1" "bob" "alice" "x"
                                    "2024-05-01T10:00:00Z"]
                       [] false false)
                    (Client.sidebar StandIn.client0)
                    (Client.settings StandIn.client0)
                    (Client.auth StandIn.client0))
                 StandIn.env0))) Sample.format_HHmm) _).
    intros m [<- | []]. eexists. reflexivity.
Defined.

(** ** Channels *)

Lemma issued_by_spec St A (m : M St A) s e ops :
  issued e (env_of (m s e)) ops -> issued_by m s e = ops.
Proof.
  unfold issued, issued_by. intros ->.
  rewrite skipn_app, skipn_all.
  replace (List.length (requests e) - List.length (requests e))%nat
    with 0%nat by lia.
  reflexivity.
Qed.

(** X13: every channel a component opens when it mounts is closed by its
    clean-up, and nothing else is: the layout opens and closes
    [user-presence], the chat window the message and the typing channel of
    the conversation, the sidebar [profiles-changes]; a mount closes no
    channel and a clean-up opens none, whatever the backend answers. *)
Theorem channels_opened_on_mount_are_closed_on_teardown
  (currentUser : User.t) (p : Profile.t)
  (r r' : reply unit) (rm : reply (list Message.t))
  (rp : reply (list Profile.t))
  (ls ls' : ChatLayout.state) (ws ws' : ChatWindow.state)
  (ss ss' : ChatSidebar.state) (e e' : Env) :
  let chat := str "chat-" ++ User.id currentUser ++ str "-" ++
              Profile.user_id p in
  let typing := str "typing-" ++ User.id currentUser ++ str "-" ++
                Profile.user_id p in
  (subscribed (issued_by (ChatLayout.mount currentUser r) ls e)
   = [str "user-presence"] /\
   unsubscribed (issued_by (ChatLayout.teardown currentUser r') ls' e')
   = [str "user-presence"] /\
   unsubscribed (issued_by (ChatLayout.mount currentUser r) ls e) = [] /\
   subscribed (issued_by (ChatLayout.teardown currentUser r') ls' e') = []) /\
  (subscribed (issued_by (ChatWindow.mount currentUser p rm) ws e)
   = [chat; typing] /\
   unsubscribed (issued_by (ChatWindow.teardown currentUser p) ws' e')
   = [chat; typing] /\
   unsubscribed (issued_by (ChatWindow.mount currentUser p rm) ws e) = [] /\
   subscribed (issued_by (ChatWindow.teardown currentUser p) ws' e') = []) /\
  (subscribed (issued_by (ChatSidebar.mount currentUser rp) ss e)
   = [str "profiles-changes"] /\
   unsubscribed (issued_by (ChatSidebar.teardown) ss' e')
   = [str "profiles-changes"] /\
   unsubscribed (issued_by (ChatSidebar.mount currentUser rp) ss e) = [] /\
   subscribed (issued_by (ChatSidebar.teardown) ss' e') = []).
Proof.
  intros chat typing.
  assert (L1 : issued e (env_of (ChatLayout.mount currentUser r ls e))
                 [status_update currentUser (str "online") (clock e);
                  ChannelSubscribe (str "user-presence")]).
  { unfold ChatLayout.mount, bind.
    destruct (updateUserStatus_outcome currentUser (str "online") r ls e)
      as (e1 & -> & I1 & _).
    unfold issued, env_of, send in *. simpl.
    rewrite I1, <- app_assoc. reflexivity. }
  assert (L2 : issued e' (env_of (ChatLayout.teardown currentUser r' ls' e'))
                 [status_update currentUser (str "offline") (clock e');
                  ChannelUnsubscribe (str "user-presence")]).
  { unfold ChatLayout.teardown, bind.
    destruct (updateUserStatus_outcome currentUser (str "offline") r' ls' e')
      as (e1 & -> & I1 & _).
    unfold issued, env_of, send in *. simpl.
    rewrite I1, <- app_assoc. reflexivity. }
  assert (W1 : issued e (env_of (ChatWindow.mount currentUser p rm ws e))
                 [messages_query currentUser p;
                  ChannelSubscribe chat; ChannelSubscribe typing]).
  { unfold ChatWindow.mount, bind.
    destruct (reply_cases _ rm) as [[d ->] | [x Hx]].
    - destruct (fetchMessages_loaded currentUser p d ws e)
        as (e1 & -> & I1 & _).
      unfold issued, env_of, send in *. simpl.
      rewrite I1, <- !app_assoc. reflexivity.
    - destruct (fetchMessages_failed currentUser p rm x ws e Hx)
        as (e1 & -> & I1 & _).
      unfold issued, env_of, send in *. simpl.
      rewrite I1, <- !app_assoc. reflexivity. }
  assert (W2 : issued e' (env_of (ChatWindow.teardown currentUser p ws' e'))
                 [ChannelUnsubscribe chat; ChannelUnsubscribe typing]).
  { unfold issued, env_of, ChatWindow.teardown, bind, send. simpl.
    rewrite <- app_assoc. reflexivity. }
  assert (S1 : issued e (env_of (ChatSidebar.mount currentUser rp ss e))
                 [profiles_query currentUser;
                  ChannelSubscribe (str "profiles-changes")]).
  { unfold ChatSidebar.mount, bind.
    destruct (reply_cases _ rp) as [[d ->] | [x Hx]].
    - destruct (fetchProfiles_loaded currentUser d ss e)
        as (e1 & -> & I1 & _).
      unfold issued, env_of, send in *. simpl.
      rewrite I1, <- app_assoc. reflexivity.
    - destruct (fetchProfiles_failed currentUser rp x ss e Hx)
        as (e1 & -> & I1 & _).
      unfold issued, env_of, send in *. simpl.
      rewrite I1, <- app_assoc. reflexivity. }
  assert (S2 : issued e' (env_of (ChatSidebar.teardown ss' e'))
                 [ChannelUnsubscribe (str "profiles-changes")]).
  { reflexivity. }
  rewrite (issued_by_spec _ _ _ _ _ _ L1), (issued_by_spec _ _ _ _ _ _ L2),
    (issued_by_spec _ _ _ _ _ _ W1), (issued_by_spec _ _ _ _ _ _ W2),
    (issued_by_spec _ _ _ _ _ _ S1), (issued_by_spec _ _ _ _ _ _ S2).
  repeat split.
Qed.

(** ** Notifications never drop or reorder messages *)

Lemma step_MessageInsert_selected enc dec currentUser newMsg p s e :
  ChatLayout.selectedProfile (Client.layout s) = Some p ->
  Client.layout (state_of (Client.step enc dec currentUser
                             (Client.MessageInsert newMsg) s e))
  = Client.layout s /\
  ChatWindow.messages
    (Client.window (state_of (Client.step enc dec currentUser
                                (Client.MessageInsert newMsg) s e)))
  = ChatWindow.append_unless_present newMsg
      (ChatWindow.messages (Client.window s)).
Proof.
  intros Hp. simpl.
  unfold Client.with_window, bind, get_state, state_of. rewrite Hp.
  split; reflexivity.
Qed.

Lemma append_unless_present_extends newMsg prev :
  (exists tail, ChatWindow.append_unless_present newMsg prev = prev ++ tail /\
                incl tail [newMsg]) /\
  In (Message.id newMsg)
     (List.map Message.id (ChatWindow.append_unless_present newMsg prev)).
Proof.
  destruct (in_dec (list_eq_dec N.eq_dec) (Message.id newMsg)
                   (List.map Message.id prev)) as [Hin|Hout].
  - rewrite append_unless_present_known by exact Hin. split; [|exact Hin].
    exists []. rewrite app_nil_r. split; [reflexivity|].
    intros x [].
  - rewrite append_unless_present_fresh by exact Hout. split.
    + exists [newMsg]. split; [reflexivity | apply incl_refl].
    + rewrite map_app. apply in_or_app. right. left. reflexivity.
Qed.

(** X10: insert notifications only ever extend the list.  With a chat
    selected, after any sequence of notifications the messages that were
    in state are still there, in the same order and at the same positions,
    followed by messages taken from the notifications; and every notified
    message's id is in the list. *)
Theorem notifications_extend_the_list
  (enc : N -> jsstring -> jsstring -> completion jsstring)
  (dec : jsstring -> jsstring -> completion jsstring)
  (currentUser : User.t) (p : Profile.t)
  (notifications : list Message.t) (s : Client.state) (e : Env) :
  ChatLayout.selectedProfile (Client.layout s) = Some p ->
  let final :=
    ChatWindow.messages
      (Client.window
         (fst (Client.run enc dec currentUser
                 (List.map Client.MessageInsert notifications) s e))) in
  (exists tail,
      final = ChatWindow.messages (Client.window s) ++ tail /\
      incl tail notifications) /\
  (forall n, In n notifications ->
             In (Message.id n) (List.map Message.id final)).
Proof.
  revert s e.
  induction notifications as [|n ns IH]; intros s e Hp final; subst final.
  - split; [|intros n []].
    exists []. rewrite app_nil_r. split; [reflexivity | apply incl_refl].
  - change (List.map Client.MessageInsert (n :: ns))
      with (Client.MessageInsert n :: List.map Client.MessageInsert ns).
    rewrite run_cons.
    destruct (step_MessageInsert_selected enc dec currentUser n p s e Hp)
      as (Hl & Hm).
    assert (Hp' : ChatLayout.selectedProfile
                    (Client.layout
                       (state_of (Client.step enc dec currentUser
                                    (Client.MessageInsert n) s e)))
                  = Some p) by (rewrite Hl; exact Hp).
    destruct (IH _ (env_of (Client.step enc dec currentUser
                              (Client.MessageInsert n) s e)) Hp')
      as ((tail & Ht & Hincl) & Hall).
    destruct (append_unless_present_extends n
                (ChatWindow.messages (Client.window s)))
      as ((t0 & Ht0 & Hincl0) & Hn).
    rewrite Hm in Ht. rewrite Ht0 in Ht. rewrite <- app_assoc in Ht.
    split.
    + exists (t0 ++ tail). split; [exact Ht|].
      intros x Hx. apply in_app_or in Hx. destruct Hx as [Hx | Hx].
      * apply Hincl0 in Hx. destruct Hx as [<- | []]. left. reflexivity.
      * right. apply Hincl. exact Hx.
    + intros n' [<- | Hn']; [|apply Hall; exact Hn'].
      rewrite Ht. rewrite app_assoc, map_app. apply in_or_app. left.
      rewrite <- Ht0. exact Hn.
Qed.

Lemma notifications_extend_the_list_witness :
  exists tail,
    ChatWindow.messages
      (Client.window
         (fst (Client.run StandIn.encrypt StandIn.decrypt StandIn.alice
                 (List.map Client.MessageInsert
                    [StandIn.msg "m2" "alice" "bob" "y" "t2";
                     StandIn.msg "m1" "bob" "alice" "x" "t1"])
                 (Client.mkState (ChatLayout.mkState (Some StandIn.bob))
                    (ChatWindow.mkState
                       [StandIn.msg "m1" "bob" "alice" "x" "t1"] [] false
                       false)
                    (Client.sidebar StandIn.client0)
                    (Client.settings StandIn.client0)
                    (Client.auth StandIn.client0))
                 StandIn.env0)))
    = [StandIn.msg "m1" "bob" "alice" "x" "t1"] ++ tail /\
    incl tail [StandIn.msg "m2" "alice" "bob" "y" "t2";
               StandIn.msg "m1" "bob" "alice" "x" "t1"].
Proof.
  exact (proj1 (notifications_extend_the_list StandIn.encrypt StandIn.decrypt
                  StandIn.alice StandIn.bob
                  [StandIn.msg "m2" "alice" "bob" "y" "t2";
                   StandIn.msg "m1" "bob" "alice" "x" "t1"]
                  (Client.mkState (ChatLayout.mkState (Some StandIn.bob))
                     (ChatWindow.mkState
                        [StandIn.msg "m1" "bob" "alice" "x" "t1"] [] false
                        false)
                     (Client.sidebar StandIn.client0)
                     (Client.settings StandIn.client0)
                     (Client.auth StandIn.client0))
                  StandIn.env0 eq_refl)).
Defined.

(** ** The conversation filter *)

Lemma matches_conversation_filter a b m :
  matches (ChatWindow.conversation_filter a b) m =
  Some ((eqb (Message.sender_id m) a && eqb (Message.receiver_id m) b)
        || (eqb (Message.sender_id m) b && eqb (Message.receiver_id m) a)).
Proof. reflexivity. Qed.

(** X14: what [sendMessage] inserts is what [fetchMessages] asks for.
    The conversation filter passes exactly the messages sent by one of the
    two users to the other, so it is the same for both participants; and a
    message stored from the row [sendMessage] inserts passes the filter of
    the sender's [fetchMessages] and that of the receiver's, whose client
    has the two ids in the opposite roles. *)
Theorem sent_messages_pass_the_conversation_filter
  (currentUser : User.t) (p : Profile.t) (content : jsstring)
  (m : Message.t) :
  (forall a b,
      matches (ChatWindow.conversation_filter a b) m = Some true <->
      (Message.sender_id m = a /\ Message.receiver_id m = b) \/
      (Message.sender_id m = b /\ Message.receiver_id m = a)) /\
  (forall a b,
      matches (ChatWindow.conversation_filter a b) m =
      matches (ChatWindow.conversation_filter b a) m) /\
  (stored_from (inserted_row (message_insert currentUser p content)) m ->
   (exists flt,
       filter_of (messages_query currentUser p) = Some flt /\
       matches flt m = Some true) /\
   (forall peer me,
       User.id peer = Profile.user_id p ->
       Profile.user_id me = User.id currentUser ->
       exists flt,
         filter_of (messages_query peer me) = Some flt /\
         matches flt m = Some true)).
Proof.
  assert (Hiff : forall a b,
             matches (ChatWindow.conversation_filter a b) m = Some true <->
             (Message.sender_id m = a /\ Message.receiver_id m = b) \/
             (Message.sender_id m = b /\ Message.receiver_id m = a)).
  { intros a b. rewrite matches_conversation_filter.
    split.
    - intros [= H]. apply orb_true_iff in H.
      rewrite !andb_true_iff, !eqb_eq in H. exact H.
    - intros H. f_equal. apply orb_true_iff.
      rewrite !andb_true_iff, !eqb_eq. exact H. }
  split; [exact Hiff|]. split.
  - intros a b. rewrite !matches_conversation_filter. f_equal.
    apply orb_comm.
  - intros (Hs & Hr & _). simpl in Hs, Hr.
    injection Hs as Hs. injection Hr as Hr. split.
    + eexists. split; [reflexivity|]. apply Hiff. left. auto.
    + intros peer me Hpeer Hme. eexists. split; [reflexivity|].
      apply Hiff. right. rewrite Hpeer, Hme. auto.
Qed.

Lemma sent_messages_pass_the_conversation_filter_witness :
  exists flt,
    filter_of (messages_query StandIn.alice StandIn.bob) = Some flt /\
    matches flt
      (Message.mk (str "m7") (str "alice") (str "bob") (str "c")
                  (str "2024-05-01T10:00:00Z"))
    = Some true.
Proof.
  refine (proj1 (proj2 (proj2 (sent_messages_pass_the_conversation_filter
                                 StandIn.alice StandIn.bob (str "c")
                                 (Message.mk (str "m7") (str "alice")
                                    (str "bob") (str "c")
                                    (str "2024-05-01T10:00:00Z")))) _)).
  repeat split.
Defined.

(** ** The contact filter *)

Lemma startsWith_iff (s t : jsstring) :
  Display.startsWith s t = true <-> exists post, s = t ++ post.
Proof.
  revert s. induction t as [|x t IH]; intros s.
  - split; [intros _; exists s; reflexivity | destruct s; reflexivity].
  - destruct s as [|y s]; simpl.
    + split; [discriminate | intros [post H]; discriminate H].
    + rewrite andb_true_iff, N.eqb_eq, IH. split.
      * intros (-> & post & ->). exists post. reflexivity.
      * intros [post H]. injection H as -> ->. eauto.
Qed.

Lemma includes_iff (s t : jsstring) :
  Display.includes s t = true <-> occurs_in t s.
Proof.
  unfold occurs_in. induction s as [|y s IH].
  - change (Display.includes [] t)
      with (Display.startsWith [] t || false).
    rewrite orb_false_r, startsWith_iff. split.
    + intros [post H]. exists [], post. exact H.
    + intros (pre & post & H). destruct pre; simpl in H; [eauto|discriminate].
  - change (Display.includes (y :: s) t)
      with (Display.startsWith (y :: s) t || Display.includes s t).
    rewrite orb_true_iff, startsWith_iff, IH. split.
    + intros [[post H] | (pre & post & H)].
      * exists [], post. exact H.
      * exists (y :: pre), post. simpl. congruence.
    + intros (pre & post & H). destruct pre as [|z pre]; simpl in H.
      * left. eauto.
      * right. injection H as -> ->. eauto.
Qed.

(** X5: the contact search is a substring search on lower-cased names.  A
    profile is listed exactly when it is among the profiles fetched and
    the lower-cased search term occurs in its lower-cased username or
    display name; the list keeps the order of the fetched profiles and
    repeats none more often; and, lower-casing mapping the empty string to
    itself, an empty search term lists every profile. *)
Theorem contact_search_is_substring_search
  (toLowerCase : jsstring -> jsstring) (st : ChatSidebar.state) :
  (forall p,
      In p (Display.filteredProfiles toLowerCase st) <->
      In p (ChatSidebar.profiles_ st) /\
      (occurs_in (toLowerCase (ChatSidebar.searchTerm st))
                 (toLowerCase (Profile.username p)) \/
       occurs_in (toLowerCase (ChatSidebar.searchTerm st))
                 (toLowerCase (Profile.display_name p)))) /\
  (exists keep,
      Display.filteredProfiles toLowerCase st =
      List.filter keep (ChatSidebar.profiles_ st)) /\
  (toLowerCase [] = [] ->
   ChatSidebar.searchTerm st = [] ->
   Display.filteredProfiles toLowerCase st = ChatSidebar.profiles_ st).
Proof.
  unfold Display.filteredProfiles. split; [|split].
  - intros p. rewrite filter_In, orb_true_iff, !includes_iff. reflexivity.
  - eexists. reflexivity.
  - intros Hlow ->. rewrite Hlow.
    induction (ChatSidebar.profiles_ st) as [|q l IH]; simpl; [reflexivity|].
    assert (H : Display.includes (toLowerCase (Profile.username q)) [] = true).
    { apply includes_iff. exists [], (toLowerCase (Profile.username q)).
      reflexivity. }
    rewrite H. simpl. f_equal. exact IH.
Qed.

Lemma contact_search_is_substring_search_witness :
  Display.filteredProfiles Display.ascii_lower
    (ChatSidebar.mkState [StandIn.bob] [] false)
  = [StandIn.bob].
Proof.
  exact (proj2 (proj2 (contact_search_is_substring_search Display.ascii_lower
                         (ChatSidebar.mkState [StandIn.bob] [] false)))
               eq_refl eq_refl).
Defined.

(** ** Initials *)

Lemma split_nonempty sep s : Display.split sep s <> [].
Proof.
  induction s as [|u r IH]; simpl; [discriminate|].
  destruct (u =? sep); [discriminate|].
  destruct (Display.split sep r); [contradiction | discriminate].
Qed.

Lemma split_app sep a b :
  Display.split sep (a ++ sep :: b) = Display.split sep a ++ Display.split sep b.
Proof.
  induction a as [|u a IH]; simpl.
  - rewrite N.eqb_refl. reflexivity.
  - destruct (u =? sep); [rewrite IH; reflexivity|].
    rewrite IH.
    destruct (Display.split sep a) as [|w ws] eqn:E;
      [exfalso; exact (split_nonempty sep a E) | reflexivity].
Qed.

Lemma split_word sep w : ~ In sep w -> Display.split sep w = [w].
Proof.
  induction w as [|u w IH]; intros H; simpl; [reflexivity|].
  destruct (u =? sep) eqn:E.
  - apply N.eqb_eq in E. exfalso. apply H. left. exact E.
  - rewrite IH; [reflexivity|]. intros Hin. apply H. right. exact Hin.
Qed.

Lemma split_pieces sep s : Forall (fun w => ~ In sep w) (Display.split sep s).
Proof.
  induction s as [|u r IH]; simpl.
  - constructor; [intros [] | constructor].
  - destruct (u =? sep) eqn:E.
    + constructor; [intros [] | exact IH].
    + destruct (Display.split sep r) as [|w ws].
      * constructor; [|constructor]. apply N.eqb_neq in E.
        intros [H | []]. congruence.
      * inversion IH as [|? ? Hw Hws]; subst. constructor; [|exact Hws].
        apply N.eqb_neq in E. intros [H | H]; [congruence | exact (Hw H)].
Qed.

Lemma join_app l1 l2 : Display.join (l1 ++ l2) = Display.join l1 ++ Display.join l2.
Proof. unfold Display.join. rewrite map_app, concat_app. reflexivity. Qed.

Lemma join_char0_free sep (l : list jsstring) :
  Forall (fun w => ~ In sep w) l ->
  ~ In sep (Display.join (List.map Display.char0 l)).
Proof.
  induction 1 as [|w ws Hw Hws IH]; [intros []|].
  change (List.map Display.char0 (w :: ws))
    with ([Display.char0 w] ++ List.map Display.char0 ws).
  rewrite join_app. intros Hin. apply in_app_or in Hin.
  destruct Hin as [Hin | Hin]; [|exact (IH Hin)].
  destruct w as [|u w]; simpl in Hin; [exact Hin|].
  destruct Hin as [<- | []]. apply Hw. left. reflexivity.
Qed.

(** X6: [getInitials] takes the first code unit of every word.  Before
    upper-casing, the initials of a word without spaces are its first code
    unit, the initials of two parts joined by a space are the initials of
    the parts put together, the empty name has none, and no space ever
    gets into them: leading, trailing and repeated spaces contribute
    nothing. *)
Theorem getInitials_takes_first_unit_of_each_word
  (toUpperCase : jsstring -> jsstring) :
  let raw := Display.getInitials (fun s => s) in
  (forall name, Display.getInitials toUpperCase name = toUpperCase (raw name)) /\
  raw [] = [] /\
  (forall u rest, ~ In 0x20 (u :: rest) -> raw (u :: rest) = [u]) /\
  (forall a b, raw (a ++ 0x20 :: b) = raw a ++ raw b) /\
  (forall name, ~ In 0x20 (raw name)).
Proof.
  intros raw. subst raw. unfold Display.getInitials.
  split; [reflexivity|]. split; [reflexivity|]. split; [|split].
  - intros u rest H. rewrite split_word by exact H. reflexivity.
  - intros a b. rewrite split_app, map_app, join_app. reflexivity.
  - intros name. apply join_char0_free. apply split_pieces.
Qed.

Lemma getInitials_takes_first_unit_of_each_word_witness :
  Display.getInitials (fun s => s) (str "bob") = str "b".
Proof.
  refine (proj1 (proj2 (proj2 (getInitials_takes_first_unit_of_each_word
                                 (fun s => s)))) 98 (str "ob") _).
  intros H. vm_compute in H. intuition discriminate.
Defined.

(** ** The selected conversation *)

Ltac keeps_layout :=
  first
    [ apply keeps_await | apply keeps_send | apply keeps_advance
    | apply keeps_modify; intros []; reflexivity
    | apply (respects_zoom _ _ _ (keeps ChatLayout.selectedProfile));
      [ intros ? ? ? ? Hk; exact Hk | ]
    | apply (respects_zoom _ _ _ (fun _ _ _ _ => True));
      [ intros; reflexivity | intros ? ?; exact I ] ].

Lemma step_keeps_selection enc dec currentUser ev :
  selects_chat ev = false ->
  respects (keeps (fun s => ChatLayout.selectedProfile (Client.layout s)))
           (Client.step enc dec currentUser ev).
Proof.
  intros Hev.
  destruct ev; try discriminate Hev;
    cbv beta iota delta [Client.step];
    autounfold with handlers;
    unfold ChatWindow.sendMessage, ChatLayout.updateUserStatus;
    stepwise keeps_layout.
Qed.

(** X17: the conversation shown is the one last chosen in the sidebar.
    [handleSelectChat] selects the profile it is given (its [userId]
    argument plays no part); no other event changes the selection; so once
    a conversation is open, one stays open along every run. *)
Theorem selection_changes_only_by_select
  (enc : N -> jsstring -> jsstring -> completion jsstring)
  (dec : jsstring -> jsstring -> completion jsstring)
  (currentUser : User.t) :
  (forall userId profile s e,
      ChatLayout.selectedProfile
        (Client.layout
           (state_of (Client.step enc dec currentUser
                        (Client.SelectChat userId profile) s e)))
      = Some profile) /\
  (forall evs s e,
      forallb (fun ev => negb (selects_chat ev)) evs = true ->
      ChatLayout.selectedProfile
        (Client.layout (fst (Client.run enc dec currentUser evs s e)))
      = ChatLayout.selectedProfile (Client.layout s)) /\
  (forall evs s e,
      ChatLayout.selectedProfile (Client.layout s) <> None ->
      ChatLayout.selectedProfile
        (Client.layout (fst (Client.run enc dec currentUser evs s e)))
      <> None).
Proof.
  assert (Hquiet : forall ev, negb (selects_chat ev) = true ->
            respects (keeps (fun s => ChatLayout.selectedProfile
                                        (Client.layout s)))
                     (Client.step enc dec currentUser ev)).
  { intros ev Hev. apply step_keeps_selection.
    destruct (selects_chat ev); [discriminate Hev | reflexivity]. }
  split; [reflexivity|]. split.
  - intros evs s e Hq.
    exact (run_keeps enc dec currentUser _
             (fun s => ChatLayout.selectedProfile (Client.layout s))
             (fun ev => negb (selects_chat ev)) Hquiet evs s e Hq).
  - intros evs. induction evs as [|ev evs IH]; intros s e Hs; [exact Hs|].
    rewrite run_cons. apply IH.
    destruct (selects_chat ev) eqn:Hev.
    + destruct ev; try discriminate Hev. simpl. discriminate.
    + rewrite (Hquiet ev ltac:(rewrite Hev; reflexivity) s e). exact Hs.
Qed.

Lemma selection_changes_only_by_select_witness :
  ChatLayout.selectedProfile
    (Client.layout
       (fst (Client.run StandIn.encrypt StandIn.decrypt StandIn.alice
               [Client.LayoutTeardown (Rejected "network"%string);
                Client.SidebarSignOut (Resolved None None);
                Client.WindowTeardown]
               StandIn.client0 StandIn.env0)))
  <> None.
Proof.
  refine (proj2 (proj2 (selection_changes_only_by_select StandIn.encrypt
                          StandIn.decrypt StandIn.alice))
                [Client.LayoutTeardown (Rejected "network"%string);
                 Client.SidebarSignOut (Resolved None None);
                 Client.WindowTeardown]
                StandIn.client0 StandIn.env0 _).
  discriminate.
Defined.

(** ** A typing session *)

Lemma flag_stays_up_refl St (s : St) e : flag_stays_up s e s e.
Proof.
  intros H. split; [exact H|]. exists []. unfold issued.
  rewrite app_nil_r. auto.
Qed.

Lemma flag_stays_up_trans St (s1 s2 s3 : St) e1 e2 e3 :
  flag_stays_up s1 e1 s2 e2 -> flag_stays_up s2 e2 s3 e3 ->
  flag_stays_up s1 e1 s3 e3.
Proof.
  intros H12 H23 H1.
  destruct (H12 H1) as (H2 & n1 & I1 & F1).
  destruct (H23 H2) as (H3 & n2 & I2 & F2).
  split; [exact H3|]. exists (n1 ++ n2). unfold issued in *.
  rewrite I2, I1, app_assoc. split; [reflexivity|].
  apply Forall_app. auto.
Qed.

(** Statements that touch neither the timers nor the backend. *)
Lemma fsu_unchanged St A (m : M St A) :
  (forall s e, timers (env_of (m s e)) = timers e /\
               requests (env_of (m s e)) = requests e) ->
  respects flag_stays_up m.
Proof.
  intros H s e Hst. destruct (H s e) as [Ht Hr].
  rewrite Ht. split; [exact Hst|]. exists []. unfold issued.
  rewrite app_nil_r. auto.
Qed.

Lemma fsu_bind St A B (m : M St A) (k : A -> M St B) :
  respects flag_stays_up m -> (forall a, respects flag_stays_up (k a)) ->
  respects flag_stays_up (bind m k).
Proof.
  intros Hm Hk s e. specialize (Hm s e).
  unfold bind, state_of, env_of in *.
  destruct (m s e) as [[[a|x] s'] e']; simpl in *; [|exact Hm].
  eapply flag_stays_up_trans; [exact Hm | apply Hk].
Qed.

Lemma fsu_try_catch St A (body : M St A) handler :
  respects flag_stays_up body ->
  (forall x, respects flag_stays_up (handler x)) ->
  respects flag_stays_up (try_catch body handler).
Proof.
  intros Hm Hk s e. specialize (Hm s e).
  unfold try_catch, state_of, env_of in *.
  destruct (body s e) as [[[a|x] s'] e']; simpl in *; [exact Hm|].
  eapply flag_stays_up_trans; [exact Hm | apply Hk].
Qed.

Lemma fsu_try_finally St A (body : M St A) fin :
  respects flag_stays_up body -> respects flag_stays_up fin ->
  respects flag_stays_up (try_finally body fin).
Proof.
  intros Hm Hf s e. specialize (Hm s e).
  unfold try_finally, state_of, env_of in *.
  destruct (body s e) as [[r s'] e']; simpl in *.
  specialize (Hf s' e').
  destruct (fin s' e') as [[[u|x] s''] e'']; simpl in *;
    eapply flag_stays_up_trans; eauto.
Qed.

Lemma fsu_await St D op (r : reply D) :
  ~ clears_typing op -> respects (@flag_stays_up St) (await op r).
Proof.
  intros Hop s e Hst. unfold issued.
  destruct r; simpl; (split; [exact Hst|]); exists [op]; auto.
Qed.

Lemma fsu_send St op :
  ~ clears_typing op -> respects (@flag_stays_up St) (send op).
Proof.
  intros Hop s e Hst. unfold issued. simpl.
  split; [exact Hst|]. exists [op]; auto.
Qed.

Lemma fsu_zoom S T A (get : S -> T) (set : T -> S -> S) (m : M T A) :
  respects flag_stays_up m -> respects flag_stays_up (zoom get set m).
Proof. apply respects_zoom. intros s e t' e' H. exact H. Qed.

Ltac not_clearing :=
  let H := fresh "H" in
  let F := fresh "F" in
  intros (? & H & F); first [ discriminate H | inversion H ].

Ltac fsu_tac extra :=
  repeat first
    [ progress intros
    | extra
    | apply fsu_unchanged; intros ? ?; split; reflexivity
    | apply fsu_await; not_clearing
    | apply fsu_send; not_clearing
    | apply fsu_zoom
    | apply fsu_bind | apply fsu_try_catch | apply fsu_try_finally
    | match goal with
      | |- respects _ (match ?x with _ => _ end) => destruct x
      end ].

Lemma take_due_sub t ts cb rest :
  take_due t ts = Some (cb, rest) ->
  (exists d, In (d, cb) ts) /\ incl rest ts.
Proof.
  revert cb rest. induction ts as [|[d c] ts IH]; intros cb rest; simpl;
    [discriminate|].
  destruct (d <=? t).
  - intros [= <- <-]. split; [exists d; left; reflexivity|].
    intros x Hx. right. exact Hx.
  - destruct (take_due t ts) as [[cb' rest']|]; [|discriminate].
    intros [= <- <-]. destruct (IH cb' rest' eq_refl) as [[d' Hin] Hincl].
    split; [exists d'; right; exact Hin|].
    intros x [<- | Hx]; [left; reflexivity | right; apply Hincl; exact Hx].
Qed.

Lemma fire_timer_flag_stays_up r : respects flag_stays_up (fire_timer r).
Proof.
  intros s e Hst. unfold fire_timer.
  destruct (take_due (clock e) (timers e)) as [[cb rest]|] eqn:E.
  - destruct (take_due_sub _ _ _ _ E) as [[d Hin] Hincl].
    assert (Hcb : cb_value cb <> cb_newMessage cb).
    { rewrite Forall_forall in Hst. exact (Hst _ Hin). }
    rewrite stale_timeout_is_inert by exact Hcb.
    unfold env_of, issued; simpl. split.
    + rewrite Forall_forall in *. intros x Hx. apply Hst, Hincl, Hx.
    + exists []. rewrite app_nil_r. auto.
  - apply (flag_stays_up_refl _ s e Hst).
Qed.

Lemma render_messages_flag_stays_up dec currentUser fmt ms :
  respects flag_stays_up
           (ChatWindow.render_messages dec currentUser fmt ms).
Proof.
  induction ms as [|m ms IH]; simpl.
  - fsu_tac fail.
  - autounfold with handlers. fsu_tac ltac:(exact IH).
Qed.

Lemma step_flag_stays_up enc dec currentUser ev s e :
  keeps_typing ev s = true ->
  flag_stays_up s e
    (state_of (Client.step enc dec currentUser ev s e))
    (env_of (Client.step enc dec currentUser ev s e)).
Proof.
  intros Hev.
  assert (Hall : forall ev',
             (forall a b c d f, ev' <> Client.KeyPress a b c d f) ->
             (forall v r, ev' <> Client.InputChange v r) ->
             respects flag_stays_up (Client.step enc dec currentUser ev')).
  { intros ev' Hk Hi.
    destruct ev';
      try (exfalso; eapply Hk; reflexivity);
      try (exfalso; eapply Hi; reflexivity);
      cbv beta iota delta [Client.step];
      autounfold with handlers;
      unfold ChatWindow.sendMessage, ChatLayout.updateUserStatus;
      fsu_tac ltac:(first [ apply fire_timer_flag_stays_up
                          | apply render_messages_flag_stays_up ]). }
  destruct ev;
    try (apply Hall; discriminate);
    try discriminate Hev.
  simpl in Hev. apply andb_true_iff in Hev. destruct Hev as [Hv Hneq].
  apply negb_true_iff, eqb_neq in Hneq.
  simpl. unfold Client.with_window, bind, get_state.
  destruct (ChatLayout.selectedProfile (Client.layout s)) as [p|];
    [|apply flag_stays_up_refl].
  unfold Client.in_window, zoom.
  destruct (handleInputChange_effects currentUser p
              (ChatWindow.newMessage (Client.window s)) value r
              (Client.window s) e) as (e' & -> & Hi & Ht & _).
  unfold state_of, env_of; simpl. intros Hst. split.
  - rewrite Ht. apply Forall_app. split; [exact Hst|].
    constructor; [exact Hneq | constructor].
  - eexists. split; [exact Hi|]. constructor; [|constructor].
    intros (row & H & F). unfold typing_upsert in H.
    injection H as <-. simpl in F.
    destruct value; [discriminate Hv|]. discriminate F.
Qed.

(** X16: timers never withdraw the typing flag.  Take any run in which
    the user only types (each input change carries a non-empty value
    different from the draft, and no key press is handled) while anything
    else may happen, time passing and time-outs firing included.  If the
    time-outs pending at the start are stale, then no request of the run
    sets [is_typing] to [false], and the time-outs pending at the end are
    stale again. *)
Theorem typing_flag_is_never_withdrawn_by_timers
  (enc : N -> jsstring -> jsstring -> completion jsstring)
  (dec : jsstring -> jsstring -> completion jsstring)
  (currentUser : User.t) (evs : list Client.event)
  (s : Client.state) (e : Env) :
  typing_session enc dec currentUser evs s e = true ->
  Forall stale (timers e) ->
  Forall stale (timers (snd (Client.run enc dec currentUser evs s e))) /\
  exists new,
    issued e (snd (Client.run enc dec currentUser evs s e)) new /\
    Forall (fun op => ~ clears_typing op) new.
Proof.
  revert s e. induction evs as [|ev evs IH]; intros s e Hs Hst.
  - apply (flag_stays_up_refl _ s e Hst).
  - simpl in Hs. apply andb_true_iff in Hs. destruct Hs as [Hev Hs].
    rewrite run_cons.
    destruct (step_flag_stays_up enc dec currentUser ev s e Hev Hst)
      as (Hst1 & n1 & I1 & F1).
    destruct (IH _ _ Hs Hst1) as (Hst2 & n2 & I2 & F2).
    split; [exact Hst2|]. exists (n1 ++ n2). unfold issued in *.
    rewrite I2, I1, app_assoc. split; [reflexivity|].
    apply Forall_app. auto.
Qed.

Lemma typing_flag_is_never_withdrawn_by_timers_witness :
  requests
    (snd (Client.run StandIn.encrypt StandIn.decrypt StandIn.alice
            [Client.InputChange (str "h") (Resolved None None);
             Client.Tick 3000;
             Client.TimerFire (Resolved None None);
             Client.InputChange (str "hi") (Resolved None None);
             Client.Tick 60000;
             Client.TimerFire (Resolved None None);
             Client.TimerFire (Resolved None None)]
            StandIn.client0 StandIn.env0))
  = [typing_upsert StandIn.alice StandIn.bob true;
     typing_upsert StandIn.alice StandIn.bob true] /\
  Forall stale
    (timers
       (snd (Client.run StandIn.encrypt StandIn.decrypt StandIn.alice
               [Client.InputChange (str "h") (Resolved None None);
                Client.Tick 3000;
                Client.TimerFire (Resolved None None);
                Client.InputChange (str "hi") (Resolved None None);
                Client.Tick 60000;
                Client.TimerFire (Resolved None None);
                Client.TimerFire (Resolved None None)]
               StandIn.client0 StandIn.env0))).
Proof.
  split; [reflexivity|].
  apply (typing_flag_is_never_withdrawn_by_timers StandIn.encrypt
           StandIn.decrypt StandIn.alice
           [Client.InputChange (str "h") (Resolved None None);
            Client.Tick 3000;
            Client.TimerFire (Resolved None None);
            Client.InputChange (str "hi") (Resolved None None);
            Client.Tick 60000;
            Client.TimerFire (Resolved None None);
            Client.TimerFire (Resolved None None)]
           StandIn.client0 StandIn.env0 eq_refl).
  constructor.
Defined.
